(** * khos-file-editor: the synchronization and persistence logic of the two
      [Editor] components, embedded in Rocq.

    The repository has two variants of one React component:
    - the remote variant (Supabase row store and storage bucket), and
    - the local variant (browser [localStorage] through [useLocalStorage]).

    The handlers of both are embedded as programs of a small state monad
    over the component state, the environment (the Supabase client or the
    browser) and, for the remote variant, the log of the calls that were
    issued together with their answers. *)

From stdpp Require Import gmap list strings.
From Stdlib Require Import NArith Ascii DecimalString DecimalPos.

Local Open Scope N_scope.

(** ** ECMAScript strings and the [String]/[Number]/[Array] methods in use *)

Module JS.

(** A JavaScript string is a finite sequence of 16-bit code units. *)
Definition jsstring : Type := list N.

(** The code units of an ASCII literal of the source. *)
Fixpoint js (s : string) : jsstring :=
  match s with
  | EmptyString => []
  | String a s' => N_of_ascii a :: js s'
  end.

(** ECMAScript [WhiteSpace]: TAB, VT, FF, ZWNBSP and the category Zs. *)
Definition isWhiteSpace (c : N) : bool :=
  (c =? 0x0009) || (c =? 0x000B) || (c =? 0x000C) || (c =? 0xFEFF)
  || (c =? 0x0020) || (c =? 0x00A0) || (c =? 0x1680)
  || ((0x2000 <=? c) && (c <=? 0x200A))
  || (c =? 0x202F) || (c =? 0x205F) || (c =? 0x3000).

(** ECMAScript [LineTerminator]: LF, CR, LS, PS. *)
Definition isLineTerminator (c : N) : bool :=
  (c =? 0x000A) || (c =? 0x000D) || (c =? 0x2028) || (c =? 0x2029).

Definition isTrimmed (c : N) : bool := isWhiteSpace c || isLineTerminator c.

(** [String.prototype.trimStart], [trimEnd] and [trim]. *)
Fixpoint trimStart (s : jsstring) : jsstring :=
  match s with
  | [] => []
  | c :: s' => if isTrimmed c then trimStart s' else s
  end.

Definition trimEnd (s : jsstring) : jsstring :=
  reverse (trimStart (reverse s)).

Definition trim (s : jsstring) : jsstring := trimEnd (trimStart s).

(** [ToBoolean] on a string: only the empty string is falsy. *)
Definition truthy (s : jsstring) : bool :=
  match s with
  | [] => false
  | _ :: _ => true
  end.

(** [ToBoolean] on a possibly [undefined] string. *)
Definition truthy_opt (o : option jsstring) : bool :=
  match o with
  | None => false
  | Some s => truthy s
  end.

(** [s.split(sep)] for a separator of one code unit (['/'] and ['.'] in the
    source).  The result is never the empty array. *)
Fixpoint split (sep : N) (s : jsstring) : list jsstring :=
  match s with
  | [] => [[]]
  | c :: s' =>
      if c =? sep then [] :: split sep s'
      else match split sep s' with
           | seg :: segs => (c :: seg) :: segs
           | [] => [[c]]
           end
  end.

(** [a.pop()] as the source uses it, for its value only: the last element,
    [undefined] on the empty array. *)
Definition pop {A : Type} (a : list A) : option A := last a.

(** [ToString] inside a template literal. *)
Definition template (o : option jsstring) : jsstring :=
  match o with
  | None => js "undefined"
  | Some s => s
  end.

(** [Number::toString] on a non-negative integer: its decimal digits. *)
Definition Number_toString (n : N) : jsstring :=
  js (NilEmpty.string_of_uint (N.to_uint n)).

(** The integer [n] for which [n / 10 - num / den] is as close to zero as
    possible, the larger one when there are two (step 10.a of
    [Number.prototype.toFixed] with one fraction digit). *)
Definition nearest_tenth (num den : N) : N :=
  (2 * 10 * num + den) / (2 * den).

(** Steps 10.b-10.c of [Number.prototype.toFixed] with one fraction digit:
    the digits of [n], left-padded to two, with the point before the last. *)
Definition fixed1_digits (n : N) : jsstring :=
  let m := Number_toString n in
  let m := if decide (length m ≤ 1)%nat then js "0" ++ m else m in
  let k := length m in
  take (k - 1)%nat m ++ js "." ++ drop (k - 1)%nat m.

(** [(num / den).toFixed(1)].  The source divides an integer byte count
    (a [File.size], below [2^53]) by a power of two, which binary64
    performs without rounding: the quotient is the rational [num / den].
    A quotient of [10^21] or more is printed by [toFixed] as [ToString]
    does, in exponent form (step 9 of [Number.prototype.toFixed]); that
    form is outside this embedding: [None]. *)
Definition div_toFixed1 (num den : N) : option jsstring :=
  if 10 ^ 21 * den <=? num then None
  else Some (fixed1_digits (nearest_tenth num den)).

(** The order of [<] on strings: lexicographic on code units.  On the
    fixed-width output of [Date.prototype.toISOString] it is the
    chronological order. *)
Fixpoint ltb (s t : jsstring) : bool :=
  match s, t with
  | _, [] => false
  | [], _ :: _ => true
  | c :: s', d :: t' => (c <? d) || ((c =? d) && ltb s' t')
  end.

Definition leb (s t : jsstring) : bool := negb (ltb t s).

End JS.

Import JS.

(** ** The state monad the handlers run in *)

Section StateMonad.
Context {S : Type}.

Definition M (A : Type) : Type := S → A * S.

Definition ret {A : Type} (a : A) : M A := λ s, (a, s).

Definition bind {A B : Type} (m : M A) (k : A → M B) : M B :=
  λ s, let '(a, s') := m s in k a s'.

Definition get : M S := λ s, (s, s).
Definition gets {A : Type} (f : S → A) : M A := λ s, (f s, s).
Definition modify (f : S → S) : M unit := λ s, (tt, f s).

(** The state a program leaves. *)
Definition exec {A : Type} (m : M A) (s : S) : S := (m s).2.

(** [for (const x of xs) body(x)]. *)
Fixpoint for_of {A : Type} (xs : list A) (body : A → M unit) : M unit :=
  match xs with
  | [] => ret tt
  | x :: xs' => bind (body x) (λ _, for_of xs' body)
  end.

(** [if (c) body] without an else branch. *)
Definition when (c : bool) (body : M unit) : M unit :=
  if c then body else ret tt.
End StateMonad.

Arguments M : clear implicits.

Declare Scope prog_scope.
Delimit Scope prog_scope with prog.
Notation "'let*' x := m 'in' k" := (bind m (λ x, k))
  (at level 10, x name, m at level 100, k at level 200,
   format "'[v' 'let*'  x  :=  m  'in' '/' k ']'") : prog_scope.
Notation "m >> k" := (bind m (λ _, k))
  (at level 100, k at level 200, right associativity) : prog_scope.

(** The browser's [File] object, as far as the components read it. *)
Record File : Type := mkFile {
  file_name : jsstring;
  file_size : N;
  file_type : jsstring;
  file_bytes : list N
}.

(** The two [window.confirm] dialogs of the components. *)
Inductive Dialog : Type :=
| ConfirmDeleteAllMessages
| ConfirmDeleteAllFiles.

(** [.filter(Boolean)] on an array of possibly [undefined] strings. *)
Definition filter_Boolean (a : list (option jsstring)) : list jsstring :=
  a ≫= λ o, match o with
            | Some s => if truthy s then [s] else []
            | None => []
            end.

(** ** The remote variant: [Editor] over the Supabase client *)

Module Remote.

Record Message : Type := mkMessage {
  m_id : jsstring;
  m_content : jsstring;
  m_created_at : jsstring
}.

Record FileItem : Type := mkFileItem {
  f_id : jsstring;
  f_name : jsstring;
  f_size : N;
  f_type : jsstring;
  f_url : jsstring;
  f_created_at : jsstring
}.

Global Instance Message_eq_dec : EqDecision Message.
Proof. solve_decision. Defined.
Global Instance FileItem_eq_dec : EqDecision FileItem.
Proof. solve_decision. Defined.

(** The error object of a Supabase answer; only its presence is read. *)
Definition Error : Type := jsstring.

(** The [{ data, error }] answer of a query. *)
Record Response (T : Type) : Type := mkResponse {
  data : option T;
  error : option Error
}.
Arguments mkResponse {T} _ _.
Arguments data {T} _.
Arguments error {T} _.

(** The object handed to [from('files').insert]. *)
Record FileRow : Type := mkFileRow {
  r_name : jsstring;
  r_size : N;
  r_type : jsstring;
  r_url : jsstring
}.

(** The Supabase client and the browser functions, as the component calls
    them, over a state [W] of the outside world.  The client reports a
    failure in the [error] field of its answer, as the destructuring in the
    source expects. *)
Class Env (W : Type) : Type := {
  (* supabase.from('messages').select('*').order('created_at', {ascending: false}) *)
  messages_select : W → Response (list Message) * W;
  (* supabase.from('files').select('*').order('created_at', {ascending: false}) *)
  files_select : W → Response (list FileItem) * W;
  (* supabase.from('messages').insert({ content }).select().single() *)
  messages_insert : jsstring → W → Response Message * W;
  (* supabase.from('messages').delete().eq('id', id) *)
  messages_delete_eq : jsstring → W → option Error * W;
  (* supabase.from('messages').delete().in('id', ids) *)
  messages_delete_in : list jsstring → W → option Error * W;
  (* supabase.storage.from('files').upload(fileName, file) *)
  storage_upload : jsstring → File → W → option Error * W;
  (* supabase.storage.from('files').getPublicUrl(fileName).data.publicUrl *)
  storage_getPublicUrl : jsstring → W → jsstring * W;
  (* supabase.from('files').insert({ name, size, type, url }).select().single() *)
  files_insert : FileRow → W → Response FileItem * W;
  (* supabase.storage.from('files').remove(fileNames) *)
  storage_remove : list jsstring → W → option Error * W;
  (* supabase.from('files').delete().eq('id', id) *)
  files_delete_eq : jsstring → W → option Error * W;
  (* supabase.from('files').delete().in('id', ids) *)
  files_delete_in : list jsstring → W → option Error * W;
  (* crypto.randomUUID() *)
  randomUUID : W → jsstring * W;
  (* window.confirm(...) *)
  confirm : Dialog → W → bool * W
}.

(** A call that was issued, with the answer it got. *)
Inductive Event : Type :=
| ESelectMessages (r : Response (list Message))
| ESelectFiles (r : Response (list FileItem))
| EInsertMessage (content : jsstring) (r : Response Message)
| EDeleteMessage (id : jsstring) (err : option Error)
| EDeleteMessages (ids : list jsstring) (err : option Error)
| EUpload (key : jsstring) (file : File) (err : option Error)
| EGetPublicUrl (key : jsstring) (publicUrl : jsstring)
| EInsertFile (row : FileRow) (r : Response FileItem)
| ERemoveBlobs (keys : list jsstring) (err : option Error)
| EDeleteFile (id : jsstring) (err : option Error)
| EDeleteFiles (ids : list jsstring) (err : option Error)
| ERandomUUID (uuid : jsstring)
| EConfirm (d : Dialog) (answer : bool)
| EConsoleError (err : Error).

(** The component state ([useState], [useRef]), the outside world and the
    log of the calls issued so far. *)
Record Sys (W : Type) : Type := mkSys {
  text : jsstring;
  messages : list Message;
  files : list FileItem;
  isLoading : bool;
  isSyncing : bool;
  fileInput : option jsstring;   (* fileInputRef.current?.value *)
  world : W;
  log : list Event
}.
Arguments mkSys {W} _ _ _ _ _ _ _ _.
Arguments text {W} _.
Arguments messages {W} _.
Arguments files {W} _.
Arguments isLoading {W} _.
Arguments isSyncing {W} _.
Arguments fileInput {W} _.
Arguments world {W} _.
Arguments log {W} _.

Section Editor.
Context {W : Type} `{!Env W}.
Local Open Scope prog_scope.

Definition setText (v : jsstring) : M (Sys W) unit :=
  modify (λ s, mkSys v (messages s) (files s) (isLoading s) (isSyncing s)
                     (fileInput s) (world s) (log s)).

Definition setMessages (f : list Message → list Message) : M (Sys W) unit :=
  modify (λ s, mkSys (text s) (f (messages s)) (files s) (isLoading s)
                     (isSyncing s) (fileInput s) (world s) (log s)).

Definition setFiles (f : list FileItem → list FileItem) : M (Sys W) unit :=
  modify (λ s, mkSys (text s) (messages s) (f (files s)) (isLoading s)
                     (isSyncing s) (fileInput s) (world s) (log s)).

Definition setIsLoading (b : bool) : M (Sys W) unit :=
  modify (λ s, mkSys (text s) (messages s) (files s) b (isSyncing s)
                     (fileInput s) (world s) (log s)).

Definition setIsSyncing (b : bool) : M (Sys W) unit :=
  modify (λ s, mkSys (text s) (messages s) (files s) (isLoading s) b
                     (fileInput s) (world s) (log s)).

(** [if (fileInputRef.current) fileInputRef.current.value = ''] *)
Definition resetFileInput : M (Sys W) unit :=
  modify (λ s, mkSys (text s) (messages s) (files s) (isLoading s)
                     (isSyncing s)
                     (match fileInput s with Some _ => Some [] | None => None end)
                     (world s) (log s)).

(** One call to the outside world, logged with its answer. *)
Definition call {A : Type} (op : W → A * W) (ev : A → Event)
  : M (Sys W) A :=
  λ s, let '(a, w) := op (world s) in
       (a, mkSys (text s) (messages s) (files s) (isLoading s)
                 (isSyncing s) (fileInput s) w (log s ++ [ev a])).

(** [console.error('Upload error:', err)] *)
Definition console_error (err : Error) : M (Sys W) unit :=
  modify (λ s, mkSys (text s) (messages s) (files s) (isLoading s)
                     (isSyncing s) (fileInput s) (world s)
                     (log s ++ [EConsoleError err])).

(** [loadData]; the two queries of [Promise.all] are answered in the
    order of the array.  The client does not throw, so the [catch] branch
    (which only logs) is never taken. *)
Definition loadData : M (Sys W) unit :=
  setIsSyncing true >>
  let* messagesRes := call messages_select ESelectMessages in
  let* filesRes := call files_select ESelectFiles in
  match data messagesRes with
  | Some d => setMessages (λ _, d)
  | None => ret tt
  end >>
  match data filesRes with
  | Some d => setFiles (λ _, d)
  | None => ret tt
  end >>
  setIsSyncing false.

Definition handleSave : M (Sys W) unit :=
  let* text := gets text in
  if negb (truthy (trim text)) then ret tt else
  setIsLoading true >>
  let* r := call (messages_insert (trim text)) (EInsertMessage (trim text)) in
  match data r, error r with
  | Some d, None => setMessages (λ prev, d :: prev) >> setText []
  | _, _ => ret tt
  end >>
  setIsLoading false.

Definition handleReset : M (Sys W) unit := setText [].

Definition handleDeleteMessage (id : jsstring) : M (Sys W) unit :=
  let* err := call (messages_delete_eq id) (EDeleteMessage id) in
  match err with
  | None => setMessages (λ prev, filter (λ m, m_id m ≠ id) prev)
  | Some _ => ret tt
  end.

Definition handleDeleteAllMessages : M (Sys W) unit :=
  let* ok := call (confirm ConfirmDeleteAllMessages)
                  (EConfirm ConfirmDeleteAllMessages) in
  if negb ok then ret tt else
  setIsLoading true >>
  let* messages := gets messages in
  let ids := m_id <$> messages in
  let* err := call (messages_delete_in ids) (EDeleteMessages ids) in
  match err with
  | None => setMessages (λ _, [])
  | Some _ => ret tt
  end >>
  setIsLoading false.

(** The body of the [for ... of] loop of [handleFileUpload]. *)
Definition uploadOne (file : File) : M (Sys W) unit :=
  let fileExt := pop (split 46 (file_name file)) in
  let* uuid := call randomUUID ERandomUUID in
  let fileName := uuid ++ js "." ++ template fileExt in
  let* uploadError := call (storage_upload fileName file)
                           (EUpload fileName file) in
  match uploadError with
  | Some e => console_error e          (* continue *)
  | None =>
      let* publicUrl := call (storage_getPublicUrl fileName)
                             (EGetPublicUrl fileName) in
      let row := mkFileRow (file_name file) (file_size file)
                           (file_type file) publicUrl in
      let* r := call (files_insert row) (EInsertFile row) in
      match data r, error r with
      | Some d, None => setFiles (λ prev, d :: prev)
      | _, _ => ret tt
      end
  end.

(** [handleFileUpload]; the argument is [e.target.files], [None] for
    [null]. *)
Definition handleFileUpload (uploadedFiles : option (list File))
  : M (Sys W) unit :=
  match uploadedFiles with
  | None => ret tt
  | Some fs =>
      setIsLoading true >>
      for_of fs uploadOne >>
      setIsLoading false >>
      resetFileInput
  end.

Definition handleDeleteFile (file : FileItem) : M (Sys W) unit :=
  let fileName := pop (split 47 (f_url file)) in
  match fileName with
  | Some k =>
      if truthy k
      then let* _ := call (storage_remove [k]) (ERemoveBlobs [k]) in ret tt
      else ret tt
  | None => ret tt
  end >>
  let* err := call (files_delete_eq (f_id file)) (EDeleteFile (f_id file)) in
  match err with
  | None => setFiles (λ prev, filter (λ f, f_id f ≠ f_id file) prev)
  | Some _ => ret tt
  end.

Definition handleDeleteAllFiles : M (Sys W) unit :=
  let* ok := call (confirm ConfirmDeleteAllFiles)
                  (EConfirm ConfirmDeleteAllFiles) in
  if negb ok then ret tt else
  setIsLoading true >>
  let* files := gets files in
  let fileNames :=
    filter_Boolean ((λ f, pop (split 47 (f_url f))) <$> files) in
  (if decide (0 < length fileNames)%nat
   then let* _ := call (storage_remove fileNames) (ERemoveBlobs fileNames) in
        ret tt
   else ret tt) >>
  let ids := f_id <$> files in
  let* err := call (files_delete_in ids) (EDeleteFiles ids) in
  match err with
  | None => setFiles (λ _, [])
  | Some _ => ret tt
  end >>
  setIsLoading false.

(** [bytes] is a byte count: an integer that is a Number, as every integer
    below [2^53] is.  [None]: the quotient is printed in exponent form, see
    [div_toFixed1]. *)
Definition formatFileSize (bytes : N) : option jsstring :=
  if bytes <? 1024 then Some (Number_toString bytes ++ js " B")
  else if bytes <? 1024 * 1024
       then (λ m, m ++ js " KB") <$> div_toFixed1 bytes 1024
       else (λ m, m ++ js " MB") <$> div_toFixed1 bytes (1024 * 1024).

End Editor.

End Remote.

(** ** The local variant: [Editor] over [useLocalStorage] *)

Module Local.

Record Message : Type := mkMessage {
  m_id : jsstring;
  m_content : jsstring;
  m_createdAt : jsstring
}.

Record FileItem : Type := mkFileItem {
  f_id : jsstring;
  f_name : jsstring;
  f_size : N;
  f_type : jsstring;
  f_data : jsstring;
  f_createdAt : jsstring
}.

Global Instance Message_eq_dec : EqDecision Message.
Proof. solve_decision. Defined.
Global Instance FileItem_eq_dec : EqDecision FileItem.
Proof. solve_decision. Defined.

(** What the persistent key-value store holds under a key: a list of one
    of the two kinds. *)
Inductive Stored : Type :=
| StoredMessages (l : list Message)
| StoredFiles (l : list FileItem).

(** The two fixed keys of the component. *)
Definition MESSAGES_KEY : jsstring := js "khos-file-editor-messages".
Definition FILES_KEY : jsstring := js "khos-file-editor-files".

(** Modelled from the spec: the hook [useLocalStorage] of
    [@/hooks/useLocalStorage], which the component imports and which is not
    among the sources.  Get-by-key "returns previously stored list or a
    supplied default". *)
Definition getStoredMessages (st : gmap jsstring Stored)
    (initialValue : list Message) : list Message :=
  match st !! MESSAGES_KEY with
  | Some (StoredMessages l) => l
  | _ => initialValue
  end.

(** Modelled from the spec: the hook [useLocalStorage], get-by-key for the
    file list. *)
Definition getStoredFiles (st : gmap jsstring Stored)
    (initialValue : list FileItem) : list FileItem :=
  match st !! FILES_KEY with
  | Some (StoredFiles l) => l
  | _ => initialValue
  end.

(** The browser functions the component calls, over a state [W] of the
    outside world.  [readAsDataURL] stands for the promise around
    [FileReader.readAsDataURL]: [Some] of [reader.result] when the read
    succeeds and [onload] resolves the promise; [None] when the read fails
    or is aborted: only [onload] is wired, so the promise is then never
    settled. *)
Class Env (W : Type) : Type := {
  (* crypto.randomUUID() *)
  randomUUID : W → jsstring * W;
  (* new Date().toISOString() *)
  now_toISOString : W → jsstring * W;
  (* reader.readAsDataURL(file), reader.result *)
  readAsDataURL : File → W → option jsstring * W;
  (* window.confirm(...) *)
  confirm : Dialog → W → bool * W
}.

(** The component state, the persistent store and the outside world. *)
Record Sys (W : Type) : Type := mkSys {
  text : jsstring;
  messages : list Message;
  files : list FileItem;
  isLoading : bool;
  fileInput : option jsstring;   (* fileInputRef.current?.value *)
  storage : gmap jsstring Stored;
  world : W
}.
Arguments mkSys {W} _ _ _ _ _ _ _.
Arguments text {W} _.
Arguments messages {W} _.
Arguments files {W} _.
Arguments isLoading {W} _.
Arguments fileInput {W} _.
Arguments storage {W} _.
Arguments world {W} _.

Section Editor.
Context {W : Type} `{!Env W}.
Local Open Scope prog_scope.

(** Modelled from the spec: the hook [useLocalStorage] at startup.  "State
    initializes directly from whatever is already in persistent storage
    at startup"; the defaults are the [[]] of the two hook calls. *)
Definition mount (st : gmap jsstring Stored) (w : W) : Sys W :=
  mkSys [] (getStoredMessages st []) (getStoredFiles st []) false
        (Some []) st w.

(** A page reload: the component state is lost, the store is kept. *)
Definition reload (s : Sys W) : Sys W := mount (storage s) (world s).

Definition setText (v : jsstring) : M (Sys W) unit :=
  modify (λ s, mkSys v (messages s) (files s) (isLoading s) (fileInput s)
                     (storage s) (world s)).

(** Modelled from the spec: the setter of [useLocalStorage]: "every state
    update is mirrored to storage immediately", set-by-key "overwrites
    entire list". *)
Definition setMessages (f : list Message → list Message) : M (Sys W) unit :=
  modify (λ s, let v := f (messages s) in
               mkSys (text s) v (files s) (isLoading s) (fileInput s)
                     (<[MESSAGES_KEY := StoredMessages v]> (storage s))
                     (world s)).

(** Modelled from the spec: the setter of [useLocalStorage] for the file
    list. *)
Definition setFiles (f : list FileItem → list FileItem) : M (Sys W) unit :=
  modify (λ s, let v := f (files s) in
               mkSys (text s) (messages s) v (isLoading s) (fileInput s)
                     (<[FILES_KEY := StoredFiles v]> (storage s))
                     (world s)).

Definition setIsLoading (b : bool) : M (Sys W) unit :=
  modify (λ s, mkSys (text s) (messages s) (files s) b (fileInput s)
                     (storage s) (world s)).

(** [if (fileInputRef.current) fileInputRef.current.value = ''] *)
Definition resetFileInput : M (Sys W) unit :=
  modify (λ s, mkSys (text s) (messages s) (files s) (isLoading s)
                     (match fileInput s with Some _ => Some [] | None => None end)
                     (storage s) (world s)).

(** One call to the browser. *)
Definition call {A : Type} (op : W → A * W) : M (Sys W) A :=
  λ s, let '(a, w) := op (world s) in
       (a, mkSys (text s) (messages s) (files s) (isLoading s)
                 (fileInput s) (storage s) w).

Definition handleSave : M (Sys W) unit :=
  let* text := gets text in
  if negb (truthy (trim text)) then ret tt else
  let* id := call randomUUID in
  let* createdAt := call now_toISOString in
  let newMessage := mkMessage id (trim text) createdAt in
  setMessages (λ prev, newMessage :: prev) >>
  setText [].

Definition handleReset : M (Sys W) unit := setText [].

Definition handleDeleteMessage (id : jsstring) : M (Sys W) unit :=
  setMessages (λ prev, filter (λ m, m_id m ≠ id) prev).

Definition handleDeleteAllMessages : M (Sys W) unit :=
  let* ok := call (confirm ConfirmDeleteAllMessages) in
  if ok then setMessages (λ _, []) else ret tt.

(** The [for ... of] loop of [handleFileUpload], which pushes one item
    per file onto [newFiles].  [None]: the promise of a read was never
    settled, and the handler stays suspended at its [await]. *)
Fixpoint readFiles (fs : list File) (newFiles : list FileItem)
  : M (Sys W) (option (list FileItem)) :=
  match fs with
  | [] => ret (Some newFiles)
  | file :: fs' =>
      let* fileData := call (readAsDataURL file) in
      match fileData with
      | None => ret None
      | Some fileData =>
          let* id := call randomUUID in
          let* createdAt := call now_toISOString in
          readFiles fs' (newFiles ++ [mkFileItem id (file_name file)
                                        (file_size file) (file_type file)
                                        fileData createdAt])
      end
  end.

(** [handleFileUpload]; the argument is [e.target.files], [None] for
    [null].  When a read is never settled nothing after it runs: the list
    is not touched and the busy flag stays up. *)
Definition handleFileUpload (uploadedFiles : option (list File))
  : M (Sys W) unit :=
  match uploadedFiles with
  | None => ret tt
  | Some fs =>
      setIsLoading true >>
      let* newFiles := readFiles fs [] in
      match newFiles with
      | None => ret tt
      | Some newFiles =>
          setFiles (λ prev, newFiles ++ prev) >>
          setIsLoading false >>
          resetFileInput
      end
  end.

Definition handleDeleteFile (id : jsstring) : M (Sys W) unit :=
  setFiles (λ prev, filter (λ f, f_id f ≠ id) prev).

Definition handleDeleteAllFiles : M (Sys W) unit :=
  let* ok := call (confirm ConfirmDeleteAllFiles) in
  if ok then setFiles (λ _, []) else ret tt.

(** [bytes] is a byte count: an integer that is a Number, as every integer
    below [2^53] is.  [None]: the quotient is printed in exponent form, see
    [div_toFixed1]. *)
Definition formatFileSize (bytes : N) : option jsstring :=
  if bytes <? 1024 then Some (Number_toString bytes ++ js " B")
  else if bytes <? 1024 * 1024
       then (λ m, m ++ js " KB") <$> div_toFixed1 bytes 1024
       else (λ m, m ++ js " MB") <$> div_toFixed1 bytes (1024 * 1024).

(** What the user can do on the page between two reloads. *)
Inductive Action : Type :=
| Typing (v : jsstring)        (* onChange of the textarea *)
| Reset
| Save
| DeleteMessage (id : jsstring)
| DeleteAllMessages
| Upload (uploadedFiles : option (list File))
| DeleteFile (id : jsstring)
| DeleteAllFiles.

Definition dispatch (a : Action) : M (Sys W) unit :=
  match a with
  | Typing v => setText v
  | Reset => handleReset
  | Save => handleSave
  | DeleteMessage id => handleDeleteMessage id
  | DeleteAllMessages => handleDeleteAllMessages
  | Upload fs => handleFileUpload fs
  | DeleteFile id => handleDeleteFile id
  | DeleteAllFiles => handleDeleteAllFiles
  end.

(** A session: the actions one after the other. *)
Definition session (acts : list Action) : M (Sys W) unit :=
  for_of acts dispatch.

End Editor.

End Local.

(** ** Vocabulary of the properties *)

(** A list of timestamps is newest first: every element is at least as late
    as all that follow it. *)
Fixpoint newest_first (ts : list jsstring) : bool :=
  match ts with
  | [] => true
  | t :: ts' => forallb (λ u, leb u t) ts' && newest_first ts'
  end.

(** [key] is the tail segment of [url]: what follows its last ['/'], the
    whole of it when it has none. *)
Definition tail_segment (url key : jsstring) : Prop :=
  (47 ∉ key) ∧ (url = key ∨ ∃ p, url = p ++ 47 :: key).

(** What [prev.filter(x => x.id !== id)] has to do to a list [l], giving
    [l']: keep exactly the items whose id is not [id], in their order. *)
Definition removes_exactly {A : Type} (key : A → jsstring) (id : jsstring)
    (l l' : list A) : Prop :=
  (∀ x, x ∈ l' ↔ x ∈ l ∧ key x ≠ id)
  ∧ l' `sublist_of` l
  ∧ (∀ l1 x l2, l = l1 ++ x :: l2 → key x = id →
                (∀ y, y ∈ l1 ++ l2 → key y ≠ id) → l' = l1 ++ l2)
  ∧ ((∀ y, y ∈ l → key y ≠ id) → l' = l).

(** The blob removal of the remote [handleDeleteFile], as a program of its
    own (the handler is this step followed by the row delete, see
    [remote_delete_file_run]). *)
Definition removeBlobOf {W : Type} `{!Remote.Env W} (file : Remote.FileItem)
  : M (Remote.Sys W) unit :=
  match pop (split 47 (Remote.f_url file)) with
  | Some k =>
      if truthy k
      then bind (Remote.call (Remote.storage_remove [k])
                             (Remote.ERemoveBlobs [k])) (λ _, ret tt)
      else ret tt
  | None => ret tt
  end.

(** The local store mirrors the component: read under the two keys, it gives
    the two lists of the component. *)
Definition mirrored {W : Type} (s : Local.Sys W) : Prop :=
  Local.getStoredMessages (Local.storage s) [] = Local.messages s
  ∧ Local.getStoredFiles (Local.storage s) [] = Local.files s.

(** Readings of the log of the remote variant. *)
Module Log.
Import Remote.

(** The files whose upload was attempted, in the order of the attempts. *)
Definition uploads (evs : list Event) : list File :=
  omap (λ e, match e with EUpload _ f _ => Some f | _ => None end) evs.

Definition is_failed_upload (e : Event) : bool :=
  match e with EUpload _ _ (Some _) => true | _ => false end.

Definition is_insert_file (e : Event) : bool :=
  match e with EInsertFile _ _ => true | _ => false end.

Definition is_insert_message (e : Event) : bool :=
  match e with EInsertMessage _ _ => true | _ => false end.

(** The row a successful [files] insert returned. *)
Definition inserted_file (e : Event) : option FileItem :=
  match e with
  | EInsertFile _ (mkResponse (Some d) None) => Some d
  | _ => None
  end.

Definition is_failed_insert_file (e : Event) : bool :=
  is_insert_file e && negb (bool_decide (is_Some (inserted_file e))).

(** How many events of a log satisfy a test. *)
Definition count (p : Event → bool) (evs : list Event) : nat :=
  length (List.filter p evs).
End Log.

(** ** Test doubles of the two environments

    A counter of the calls made so far and the numbers of the calls that are
    to fail (for [confirm]: to be declined).  Identifiers and timestamps are
    made from the counter. *)

Module Fake.

Record World : Type := mkWorld {
  tick : nat;
  failing : list nat
}.

Definition fails (w : World) : bool := bool_decide (tick w ∈ failing w).
Definition next (w : World) : World := mkWorld (S (tick w)) (failing w).

Definition fresh (prefix : string) (w : World) : jsstring :=
  js prefix ++ Number_toString (N.of_nat (tick w)).

(** A timestamp in the format of [toISOString], one millisecond per call. *)
Definition stamp (w : World) : jsstring :=
  js "2024-01-01T00:00:00."
  ++ drop 1 (Number_toString (1000 + N.of_nat (tick w))) ++ js "Z".

Definition answer {A : Type} (ok : A) (ko : A) (w : World) : A * World :=
  (if fails w then ko else ok, next w).

Definition failure : option Remote.Error := Some (js "failed").

Global Instance remote : Remote.Env World := {|
  Remote.messages_select :=
    answer (Remote.mkResponse (Some []) None) (Remote.mkResponse None failure);
  Remote.files_select :=
    answer (Remote.mkResponse (Some []) None) (Remote.mkResponse None failure);
  Remote.messages_insert := λ content w,
    answer (Remote.mkResponse
              (Some (Remote.mkMessage (fresh "m" w) content (stamp w))) None)
           (Remote.mkResponse None failure) w;
  Remote.messages_delete_eq := λ _, answer None failure;
  Remote.messages_delete_in := λ _, answer None failure;
  Remote.storage_upload := λ _ _, answer None failure;
  Remote.storage_getPublicUrl := λ key w,
    (js "https://kho.example/storage/v1/object/public/files/" ++ key, w);
  Remote.files_insert := λ row w,
    answer (Remote.mkResponse
              (Some (Remote.mkFileItem (fresh "f" w) (Remote.r_name row)
                       (Remote.r_size row) (Remote.r_type row)
                       (Remote.r_url row) (stamp w))) None)
           (Remote.mkResponse None failure) w;
  Remote.storage_remove := λ _, answer None failure;
  Remote.files_delete_eq := λ _, answer None failure;
  Remote.files_delete_in := λ _, answer None failure;
  Remote.randomUUID := λ w, (fresh "uuid" w, next w);
  Remote.confirm := λ _, answer true false
|}.

Global Instance browser : Local.Env World := {|
  Local.randomUUID := λ w, (fresh "uuid" w, next w);
  Local.now_toISOString := λ w, (stamp w, next w);
  Local.readAsDataURL := λ f,
    answer (Some (js "data:" ++ file_type f ++ js ";base64," ++ file_bytes f))
           None;
  Local.confirm := λ _, answer true false
|}.

Definition remote0 (failing : list nat) : Remote.Sys World :=
  Remote.mkSys [] [] [] false false (Some []) (mkWorld 0 failing) [].

Definition a_txt : File := mkFile (js "a.txt") 3 (js "text/plain") (js "YWJj").
Definition b_png : File := mkFile (js "b.png") 2048 (js "image/png") (js "iVBO").
Definition c_pdf : File := mkFile (js "c.pdf") 5 (js "application/pdf") (js "JVBE").

End Fake.

(** ** Further vocabulary *)

(** [ext] is what [name.split('.').pop()] keeps of a file name: what follows
    its last ['.'], the whole name when it has none. *)
Definition extension_of (name ext : jsstring) : Prop :=
  (46 ∉ ext) ∧ (name = ext ∨ ∃ p, name = p ++ 46 :: ext).

(** A string made of characters [trim] removes only. *)
Definition blank (s : jsstring) : Prop := Forall (λ c, isTrimmed c = true) s.

(** [c] is [s] without the blank characters around it. *)
Definition trimmed_of (s c : jsstring) : Prop :=
  (∃ pre post, s = pre ++ c ++ post ∧ blank pre ∧ blank post)
  ∧ (∀ x, head c = Some x → isTrimmed x = false)
  ∧ (∀ x, last c = Some x → isTrimmed x = false).

(** More readings of the log of the remote variant. *)
Definition is_ok_upload (e : Remote.Event) : bool :=
  match e with Remote.EUpload _ _ None => true | _ => false end.

Definition is_console_error (e : Remote.Event) : bool :=
  match e with Remote.EConsoleError _ => true | _ => false end.

Definition is_store_call (e : Remote.Event) : bool :=
  match e with
  | Remote.ERandomUUID _ | Remote.EConfirm _ _ | Remote.EConsoleError _ => false
  | _ => true
  end.

(** The calls of the rounds of the remote upload loop over a batch: each
    round draws an identifier and attempts the upload under the key made of
    it and of the extension; a failed upload is logged on the console; a
    successful one is followed by the resolution of the public URL and by
    the insert of the row of the file with that URL. *)
Inductive upload_rounds : list File → list Remote.Event → Prop :=
| rounds_done : upload_rounds [] []
| rounds_failed uuid ext file e fs evs :
    pop (split 46 (file_name file)) = Some ext →
    upload_rounds fs evs →
    upload_rounds (file :: fs)
      (Remote.ERandomUUID uuid
       :: Remote.EUpload (uuid ++ js "." ++ ext) file (Some e)
       :: Remote.EConsoleError e :: evs)
| rounds_uploaded uuid ext file publicUrl r fs evs :
    pop (split 46 (file_name file)) = Some ext →
    upload_rounds fs evs →
    upload_rounds (file :: fs)
      (Remote.ERandomUUID uuid
       :: Remote.EUpload (uuid ++ js "." ++ ext) file None
       :: Remote.EGetPublicUrl (uuid ++ js "." ++ ext) publicUrl
       :: Remote.EInsertFile
            (Remote.mkFileRow (file_name file) (file_size file)
                              (file_type file) publicUrl) r
       :: evs).

(** The storage keys [deleteAllFiles] removes: the tail segments of the URLs
    of the listed files, the empty ones left out. *)
Definition blob_keys (fs : list Remote.FileItem) : list jsstring :=
  filter_Boolean ((λ f, pop (split 47 (Remote.f_url f))) <$> fs).

(** Every listed message has a content that is not blank. *)
Definition nonblank_contents (ms : list Local.Message) : Prop :=
  Forall (λ m, trim (Local.m_content m) ≠ []) ms.

(** Every read of the local upload loop over a batch resolves, the loop
    started in the world [w]: the read of the first file does, and so do
    those of the rest of the batch in the world left by the round. *)
Fixpoint reads_resolve {W : Type} `{!Local.Env W} (fs : list File) (w : W)
  : Prop :=
  match fs with
  | [] => True
  | file :: fs' =>
      ∃ fileData w1,
        Local.readAsDataURL file w = (Some fileData, w1)
        ∧ reads_resolve fs' (Local.now_toISOString (Local.randomUUID w1).2).2
  end.

(** Every read of every upload of a session resolves. *)
Fixpoint uploads_resolve {W : Type} `{!Local.Env W} (acts : list Local.Action)
    (s : Local.Sys W) : Prop :=
  match acts with
  | [] => True
  | a :: acts' =>
      match a with
      | Local.Upload (Some fs) => reads_resolve fs (Local.world s)
      | _ => True
      end
      ∧ uploads_resolve acts' (exec (Local.dispatch a) s)
  end.

(** An item made for a file: it has the name, size and type of the file. *)
Definition describes (item : Local.FileItem) (file : File) : Prop :=
  Local.f_name item = file_name file ∧ Local.f_size item = file_size file
  ∧ Local.f_type item = file_type file.


(** * Properties *)

(** ** The library functions on examples *)

Example formatFileSize_1587 : Local.formatFileSize 1587 = Some (js "1.5 KB").
Proof. reflexivity. Qed.
Example formatFileSize_0 : Local.formatFileSize 0 = Some (js "0 B").
Proof. reflexivity. Qed.
Example formatFileSize_1048575 :
  Local.formatFileSize 1048575 = Some (js "1024.0 KB").
Proof. reflexivity. Qed.
Example trim_spaces : trim (js "  a b  ") = js "a b".
Proof. reflexivity. Qed.
Example trim_newlines : trim [0x0A; 0x3000; 0x61; 0x0D; 0x2028] = js "a".
Proof. reflexivity. Qed.
Example split_slash : split 47 (js "a/b/") = [js "a"; js "b"; []].
Proof. reflexivity. Qed.
Example pop_split_url :
  pop (split 47 (js "https://h/storage/files/k.txt")) = Some (js "k.txt").
Proof. reflexivity. Qed.

(** Literals stay literals when a program is reduced. *)
Arguments js _ : simpl never.

(** Unfolds the monad so that a handler reduces on a state. *)
Ltac run_prog :=
  unfold exec, when, bind, ret, gets, get, modify in *; cbn in *.

(** Reduces a handler without a loop on a state and splits on every answer
    of the outside world. *)
Ltac run_cases := run_prog; repeat case_match; simplify_eq; cbn in *.

(** The ten cases of a decimal digit. *)
Ltac digit_cases r H :=
  let Hcases := fresh "Hcases" in
  assert (r = 0 ∨ r = 1 ∨ r = 2 ∨ r = 3 ∨ r = 4 ∨ r = 5 ∨ r = 6 ∨ r = 7
          ∨ r = 8 ∨ r = 9) as Hcases by lia;
  clear H;
  destruct Hcases
    as [-> | [-> | [-> | [-> | [-> | [-> | [-> | [-> | [-> | ->]]]]]]]]].

(** ** Strings *)

Lemma truthy_false (s : jsstring) : truthy s = false ↔ s = [].
Proof. destruct s; split; done. Qed.

Lemma truthy_true (s : jsstring) : truthy s = true ↔ s ≠ [].
Proof. destruct s; split; done. Qed.

Lemma trimStart_head (c : N) (s : jsstring) :
  isTrimmed c = false → trimStart (c :: s) = c :: s.
Proof. intros Hc. cbn. by rewrite Hc. Qed.

(** What [trimStart] leaves is empty or starts with a character it keeps. *)
Lemma trimStart_shape (s : jsstring) :
  trimStart s = [] ∨ ∃ c u, trimStart s = c :: u ∧ isTrimmed c = false.
Proof.
  induction s as [| c s IH]; [by left |]. cbn.
  destruct (isTrimmed c) eqn:Hc; [done |]. right. by exists c, s.
Qed.

Lemma trimStart_idempotent (s : jsstring) :
  trimStart (trimStart s) = trimStart s.
Proof.
  destruct (trimStart_shape s) as [-> | (c & u & -> & Hc)]; [done |].
  by apply trimStart_head.
Qed.

Lemma trimStart_app_kept (l : jsstring) (c : N) (k : jsstring) :
  isTrimmed c = false → trimStart (l ++ c :: k) = trimStart l ++ c :: k.
Proof.
  intros Hc. induction l as [| a l IH]; cbn; [by rewrite Hc |].
  by destruct (isTrimmed a).
Qed.

Lemma trimEnd_idempotent (s : jsstring) : trimEnd (trimEnd s) = trimEnd s.
Proof.
  unfold trimEnd. by rewrite reverse_involutive, trimStart_idempotent.
Qed.

(** [trimEnd] does not uncover anything for [trimStart] to remove. *)
Lemma trimStart_trimEnd_trimStart (s : jsstring) :
  trimStart (trimEnd (trimStart s)) = trimEnd (trimStart s).
Proof.
  destruct (trimStart_shape s) as [-> | (c & u & -> & Hc)]; [done |].
  unfold trimEnd. rewrite reverse_cons, (trimStart_app_kept _ c [] Hc).
  rewrite reverse_app. cbn. by rewrite Hc.
Qed.

Lemma trim_idempotent (s : jsstring) : trim (trim s) = trim s.
Proof.
  unfold trim. by rewrite trimStart_trimEnd_trimStart, trimEnd_idempotent.
Qed.

(** [split] cuts at every separator: its segments have none, and joining
    them with the separator gives the string back. *)
Lemma split_spec (sep : N) (s : jsstring) :
  ∃ segs t, split sep s = segs ++ [t]
            ∧ Forall (λ g, sep ∉ g) (segs ++ [t])
            ∧ s = concat ((λ g, g ++ [sep]) <$> segs) ++ t.
Proof.
  induction s as [| c s IH].
  - exists [], []. cbn. split; [done |]. split; [| done].
    constructor; [apply not_elem_of_nil | constructor].
  - destruct IH as (segs & t & Hsplit & Hno & Hjoin). cbn [split].
    destruct (N.eqb_spec c sep) as [-> | Hc].
    + exists ([] :: segs), t. rewrite Hsplit.
      split; [done |]. split.
      * constructor; [apply not_elem_of_nil | done].
      * cbn. by rewrite <- Hjoin.
    + rewrite Hsplit. destruct segs as [| g segs]; cbn in *.
      * exists [], (c :: t). cbn.
        split; [done |]. split; [| by rewrite Hjoin].
        constructor; [| constructor].
        apply Forall_inv in Hno. rewrite not_elem_of_cons. done.
      * exists ((c :: g) :: segs), t. cbn.
        split; [done |]. split.
        -- constructor; [| by eapply Forall_inv_tail].
           apply Forall_inv in Hno. rewrite not_elem_of_cons. done.
        -- by rewrite Hjoin.
Qed.

(** [s.split('/').pop()] is the tail segment of [s]. *)
Lemma split_pop_tail_segment (s : jsstring) :
  ∃ key, pop (split 47 s) = Some key ∧ tail_segment s key.
Proof.
  destruct (split_spec 47 s) as (segs & t & Hsplit & Hno & Hjoin).
  exists t. unfold pop. rewrite Hsplit, last_snoc. split; [done |].
  split.
  - apply Forall_app in Hno as [_ Hno]. by apply Forall_inv in Hno.
  - destruct segs as [| g segs _] using rev_ind; [by left |].
    right. exists (concat ((λ g, g ++ [47]) <$> segs) ++ g).
    rewrite Hjoin, fmap_app, concat_app. cbn.
    by rewrite app_nil_r, <- !app_assoc.
Qed.

(** ** Decimal digits and [toFixed(1)] *)

Lemma digits_of_revapp (d d' : Decimal.uint) :
  js (NilEmpty.string_of_uint (Decimal.revapp d d'))
  = js (NilEmpty.string_of_uint (Decimal.revapp d Decimal.Nil))
    ++ js (NilEmpty.string_of_uint d').
Proof.
  revert d'. induction d as [| d IH | d IH | d IH | d IH | d IH | d IH
                               | d IH | d IH | d IH | d IH]; intros d';
    [done | cbn [Decimal.revapp];
            rewrite IH, (IH (_ Decimal.Nil)), <- app_assoc; done ..].
Qed.

Lemma to_uint_rev_to_lu (n : N) :
  n ≠ 0 → N.to_uint n = Decimal.rev (DecimalPos.Unsigned.to_lu n).
Proof. by destruct n. Qed.

(** The little-endian digits of [10 * p + r]: the digit [r], then those of
    [p]. *)
Lemma to_lu_tenfold_plus (p : positive) (r : N) :
  r < 10 →
  DecimalPos.Unsigned.to_lu (10 * N.pos p + r)
  = Decimal.revapp (N.to_uint r) (DecimalPos.Unsigned.to_lu (N.pos p)).
Proof.
  intros Hr.
  pose proof (DecimalPos.Unsigned.to_ldec_tenfold p) as Hten.
  assert (∀ n, DecimalPos.Unsigned.to_lu (10 * N.pos p + N.succ n)
               = Decimal.Little.succ
                   (DecimalPos.Unsigned.to_lu (10 * N.pos p + n))) as Hsucc.
  { intros n. rewrite <- DecimalPos.Unsigned.to_lu_succ. f_equal. lia. }
  digit_cases r Hr;
    [rewrite N.add_0_r; exact Hten
    | repeat (first [ rewrite N.add_0_r, Hten
                    | match goal with
                      | |- context [10 * N.pos p + ?k] =>
                          let k' := eval vm_compute in (N.pred k) in
                          change k with (N.succ k'); rewrite (Hsucc k')
                      end ]); reflexivity ..].
Qed.

(** The decimal digits of [10 * q + r], for [q] not zero and [r] a digit:
    the digits of [q], then the digit [r]. *)
Lemma Number_toString_snoc (q r : N) :
  q ≠ 0 → r < 10 →
  Number_toString (10 * q + r) = Number_toString q ++ Number_toString r.
Proof.
  intros Hq Hr. destruct q as [| p]; [done |]. unfold Number_toString.
  rewrite (to_uint_rev_to_lu (10 * N.pos p + r)) by lia.
  rewrite (to_uint_rev_to_lu (N.pos p)) by done.
  rewrite (to_lu_tenfold_plus p r Hr). unfold Decimal.rev.
  digit_cases r Hr;
    match goal with
    | |- context [N.to_uint ?k] =>
        let v := eval vm_compute in (N.to_uint k) in
        change (N.to_uint k) with v
    end;
    cbn [Decimal.revapp]; apply digits_of_revapp.
Qed.

Lemma Number_toString_digit (r : N) :
  r < 10 → length (Number_toString r) = 1%nat.
Proof. intros Hr. digit_cases r Hr; reflexivity. Qed.

Lemma Number_toString_nonempty (n : N) :
  length (Number_toString n) ≠ 0%nat.
Proof.
  destruct n as [| p]; [done |].
  unfold Number_toString. cbn [N.to_uint].
  pose proof (DecimalPos.Unsigned.to_uint_nonnil p) as Hnil.
  destruct (Pos.to_uint p); done.
Qed.

(** [toFixed(1)] on [n] tenths: the decimal digits of the integer part
    [n / 10], the point, and the one digit [n mod 10]. *)
Lemma fixed1_digits_spec (n : N) :
  fixed1_digits n
  = Number_toString (n / 10) ++ js "." ++ Number_toString (n mod 10).
Proof.
  pose proof (N.div_mod n 10 ltac:(done)) as Hn.
  pose proof (N.mod_lt n 10 ltac:(done)) as Hr.
  remember (n / 10) as q eqn:Eq. remember (n mod 10) as r eqn:Er.
  clear Eq Er. subst n.
  pose proof (Number_toString_digit r Hr) as Hlen.
  unfold fixed1_digits.
  destruct (decide (q = 0)) as [-> | Hq].
  - rewrite N.mul_0_r, N.add_0_l. clear Hlen.
    digit_cases r Hr; reflexivity.
  - rewrite (Number_toString_snoc q r Hq Hr).
    pose proof (Number_toString_nonempty q) as Hpos.
    rewrite decide_False by (rewrite length_app; lia).
    rewrite length_app, Hlen.
    replace (length (Number_toString q) + 1 - 1)%nat
      with (length (Number_toString q)) by lia.
    by rewrite take_app_length, drop_app_length.
Qed.

(** [nearest_tenth num den] is within half a tenth of [num / den], and is
    the upper one when two integers are. *)
Lemma nearest_tenth_spec (num den : N) :
  0 < den →
  den * (2 * nearest_tenth num den) ≤ 2 * 10 * num + den
  ∧ 2 * 10 * num + den < den * (2 * (nearest_tenth num den + 1)).
Proof.
  intros Hden. unfold nearest_tenth.
  pose proof (N.div_mod (2 * 10 * num + den) (2 * den) ltac:(lia)) as Hdiv.
  pose proof (N.mod_lt (2 * 10 * num + den) (2 * den) ltac:(lia)) as Hmod.
  remember ((2 * 10 * num + den) / (2 * den)) as q eqn:Eq.
  remember ((2 * 10 * num + den) mod (2 * den)) as r eqn:Er.
  clear Eq Er. nia.
Qed.

(** ** Lists *)

Lemma filter_keeps_all {A : Type} (key : A → jsstring) (id : jsstring)
    (l : list A) :
  (∀ y, y ∈ l → key y ≠ id) → filter (λ x, key x ≠ id) l = l.
Proof.
  induction l as [| a l IH]; intros Hall; [done |].
  rewrite filter_cons_True by (apply Hall; left).
  f_equal. apply IH. intros y Hy. apply Hall. by right.
Qed.

Lemma filter_removes_exactly {A : Type} (key : A → jsstring) (id : jsstring)
    (l : list A) :
  removes_exactly key id l (filter (λ x, key x ≠ id) l).
Proof.
  unfold removes_exactly. split; [| split; [| split]].
  - intros x. rewrite list_elem_of_filter. tauto.
  - apply sublist_filter.
  - intros l1 x l2 -> Hk Hrest.
    rewrite filter_app, filter_cons_False by (intros Hn; by apply Hn).
    rewrite <- filter_app. by apply filter_keeps_all.
  - apply filter_keeps_all.
Qed.

(** Prepending something at least as late as all that is listed, and taking
    a sublist, keep a list newest first. *)
Lemma newest_first_cons (t : jsstring) (ts : list jsstring) :
  Forall (λ u, leb u t = true) ts → newest_first ts = true →
  newest_first (t :: ts) = true.
Proof.
  intros Hall Hts. cbn. rewrite Hts, andb_true_r.
  apply forallb_forall. intros u Hu.
  rewrite Forall_forall in Hall. apply Hall. by apply list_elem_of_In.
Qed.

Lemma newest_first_sublist (ts ts' : list jsstring) :
  ts' `sublist_of` ts → newest_first ts = true → newest_first ts' = true.
Proof.
  induction 1 as [| t l1 l2 Hsub IH | t l1 l2 Hsub IH]; cbn; [done | |].
  - rewrite !andb_true_iff. intros [Hall Hl2]. split; [| by apply IH].
    rewrite forallb_forall in *. intros u Hu. apply Hall.
    apply list_elem_of_In. eapply elem_of_sublist; [| done].
    by apply list_elem_of_In.
  - rewrite andb_true_iff. intros [_ Hl2]. by apply IH.
Qed.

(** ** The monad and the log *)

Lemma exec_bind {S A B : Type} (m : M S A) (k : A → M S B) (s : S) :
  exec (bind m k) s = exec (k (m s).1) (exec m s).
Proof. unfold exec, bind. by destruct (m s). Qed.

Lemma count_app (p : Remote.Event → bool) (l1 l2 : list Remote.Event) :
  Log.count p (l1 ++ l2) = (Log.count p l1 + Log.count p l2)%nat.
Proof. unfold Log.count. by rewrite List.filter_app, length_app. Qed.

(** Every [files] insert of a log either returned a row or failed. *)
Lemma count_insert_file (evs : list Remote.Event) :
  Log.count Log.is_insert_file evs
  = (length (omap Log.inserted_file evs)
     + Log.count Log.is_failed_insert_file evs)%nat.
Proof.
  induction evs as [| e evs IH]; [done |].
  change (e :: evs) with ([e] ++ evs).
  rewrite !count_app, omap_app, length_app, IH.
  assert (Log.count Log.is_insert_file [e]
          = (length (omap Log.inserted_file [e])
             + Log.count Log.is_failed_insert_file [e])%nat) as ->; [| lia].
  destruct e as [| | | | | | | row [[d |] [e |]] | | | | | |]; reflexivity.
Qed.

(** ** The remote handlers, run *)

Section RemoteRuns.
Context {W : Type} `{!Remote.Env W}.
Import Remote.

Lemma remote_save_blank (s : Sys W) :
  trim (text s) = [] → handleSave s = (tt, s).
Proof.
  intros Hblank. unfold handleSave. run_prog. by rewrite Hblank.
Qed.

Lemma remote_save_run (s : Sys W) :
  trim (text s) ≠ [] →
  ∀ r w, messages_insert (trim (text s)) (world s) = (r, w) →
  exec handleSave s =
    match data r, error r with
    | Some d, None =>
        mkSys [] (d :: messages s) (files s) false (isSyncing s)
              (fileInput s) w (log s ++ [EInsertMessage (trim (text s)) r])
    | _, _ =>
        mkSys (text s) (messages s) (files s) false (isSyncing s)
              (fileInput s) w (log s ++ [EInsertMessage (trim (text s)) r])
    end.
Proof.
  intros Hne r w Hins. apply truthy_true in Hne.
  unfold handleSave, setIsLoading, setMessages, setText, call. run_prog.
  rewrite Hne. cbn. rewrite Hins. cbn.
  destruct (data r), (error r); reflexivity.
Qed.

Lemma remote_delete_message_run (s : Sys W) (id : jsstring) :
  ∀ err w, messages_delete_eq id (world s) = (err, w) →
  exec (handleDeleteMessage id) s =
    mkSys (text s)
          (match err with
           | None => filter (λ m, m_id m ≠ id) (messages s)
           | Some _ => messages s
           end)
          (files s) (isLoading s) (isSyncing s) (fileInput s) w
          (log s ++ [EDeleteMessage id err]).
Proof.
  intros err w Hdel.
  unfold handleDeleteMessage, setMessages, call. run_prog.
  rewrite Hdel. by destruct err.
Qed.

(** The blob removal issues at most one call, a removal under the tail
    segment of the URL, and touches nothing of the component. *)
Lemma removeBlobOf_spec (file : FileItem) (s : Sys W) :
  ∃ removal w,
    exec (removeBlobOf file) s =
      mkSys (text s) (messages s) (files s) (isLoading s) (isSyncing s)
            (fileInput s) w (log s ++ removal)
    ∧ (length removal ≤ 1)%nat
    ∧ ∀ ev, ev ∈ removal →
            ∃ key e, ev = ERemoveBlobs [key] e ∧ tail_segment (f_url file) key.
Proof.
  unfold removeBlobOf.
  destruct (split_pop_tail_segment (f_url file)) as (key & -> & Htail).
  destruct (truthy key).
  - unfold call. run_prog.
    destruct (storage_remove [key] (world s)) as [e w]. cbn.
    exists [ERemoveBlobs [key] e], w. split; [done |]. split; [done |].
    intros ev Hev. apply list_elem_of_singleton in Hev as ->. eauto.
  - exists [], (world s). run_prog. rewrite app_nil_r. split.
    + by destruct s.
    + split; [cbn; lia |].
      intros ev Hev. by apply not_elem_of_nil in Hev.
Qed.

(** [handleDeleteFile] is the blob removal, then the row delete and, when
    it answered without an error, the filter. *)
Lemma remote_delete_file_run (file : FileItem) (s : Sys W) :
  handleDeleteFile file s =
    let s1 := exec (removeBlobOf file) s in
    let '(err, w) := files_delete_eq (f_id file) (world s1) in
    (tt, mkSys (text s1) (messages s1)
               (match err with
                | None => filter (λ f, f_id f ≠ f_id file) (files s1)
                | Some _ => files s1
                end)
               (isLoading s1) (isSyncing s1) (fileInput s1) w
               (log s1 ++ [EDeleteFile (f_id file) err])).
Proof.
  unfold handleDeleteFile, removeBlobOf, setFiles, call, pop. run_prog.
  destruct (last (split 47 (f_url file))) as [k |]; cbn.
  - destruct (truthy k); cbn.
    + destruct (storage_remove [k] (world s)) as [e w1]. cbn.
      destruct (files_delete_eq (f_id file) w1) as [[err |] w]; done.
    + destruct (files_delete_eq (f_id file) (world s)) as [[err |] w]; done.
  - destruct (files_delete_eq (f_id file) (world s)) as [[err |] w]; done.
Qed.

(** What one round of the upload loop does: it attempts the upload of its
    file, and then either logs the failure or inserts one row, which it
    prepends when the insert succeeded. *)
Lemma uploadOne_spec (file : File) (s : Sys W) :
  ∃ evs w,
    exec (uploadOne file) s =
      mkSys (text s) (messages s)
            (reverse (omap Log.inserted_file evs) ++ files s)
            (isLoading s) (isSyncing s) (fileInput s) w (log s ++ evs)
    ∧ Log.uploads evs = [file]
    ∧ (Log.count Log.is_insert_file evs
       + Log.count Log.is_failed_upload evs = 1)%nat.
Proof.
  unfold uploadOne, setFiles, console_error, call. run_prog.
  destruct (randomUUID (world s)) as [uuid w1]. cbn.
  set (fileName := uuid ++ js "." ++ template (pop (split 46 (file_name file)))).
  destruct (storage_upload fileName file w1) as [[e |] w2]; cbn.
  - exists [ERandomUUID uuid; EUpload fileName file (Some e); EConsoleError e], w2.
    rewrite <- !app_assoc. done.
  - destruct (storage_getPublicUrl fileName w2) as [publicUrl w3]. cbn.
    set (row := mkFileRow _ _ _ _).
    destruct (files_insert row w3) as [r w4]. cbn.
    exists [ERandomUUID uuid; EUpload fileName file None;
            EGetPublicUrl fileName publicUrl; EInsertFile row r], w4.
    rewrite <- !app_assoc.
    destruct r as [[d |] [e |]]; done.
Qed.

Lemma upload_loop_spec (fs : list File) (s : Sys W) :
  ∃ evs w,
    exec (for_of fs uploadOne) s =
      mkSys (text s) (messages s)
            (reverse (omap Log.inserted_file evs) ++ files s)
            (isLoading s) (isSyncing s) (fileInput s) w (log s ++ evs)
    ∧ Log.uploads evs = fs
    ∧ (Log.count Log.is_insert_file evs
       + Log.count Log.is_failed_upload evs = length fs)%nat.
Proof.
  revert s. induction fs as [| file fs IH]; intros s.
  - exists [], (world s). cbn. rewrite app_nil_r. by destruct s.
  - cbn [for_of]. rewrite exec_bind.
    destruct (uploadOne_spec file s) as (evs1 & w1 & -> & Hup1 & Hcnt1).
    destruct (IH (mkSys (text s) (messages s)
                    (reverse (omap Log.inserted_file evs1) ++ files s)
                    (isLoading s) (isSyncing s) (fileInput s) w1
                    (log s ++ evs1)))
      as (evs2 & w2 & -> & Hup2 & Hcnt2).
    cbn. exists (evs1 ++ evs2), w2. split; [| split].
    + by rewrite omap_app, reverse_app, <- !app_assoc.
    + unfold Log.uploads in *. by rewrite omap_app, Hup1, Hup2.
    + rewrite !count_app. cbn [length]. lia.
Qed.

Lemma remote_upload_run (fs : list File) (s : Sys W) :
  ∃ evs w,
    exec (handleFileUpload (Some fs)) s =
      mkSys (text s) (messages s)
            (reverse (omap Log.inserted_file evs) ++ files s)
            false (isSyncing s)
            (match fileInput s with Some _ => Some [] | None => None end)
            w (log s ++ evs)
    ∧ Log.uploads evs = fs
    ∧ (Log.count Log.is_insert_file evs
       + Log.count Log.is_failed_upload evs = length fs)%nat.
Proof.
  unfold handleFileUpload. rewrite !exec_bind.
  destruct (upload_loop_spec fs (exec (setIsLoading true) s))
    as (evs & w & -> & Hup & Hcnt).
  exists evs, w. done.
Qed.

(** The other list, after each handler. *)

Lemma remote_save_files (s : Sys W) : files (exec handleSave s) = files s.
Proof.
  unfold handleSave, setIsLoading, setMessages, setText, call.
  by run_cases.
Qed.

Lemma remote_delete_message_files (id : jsstring) (s : Sys W) :
  files (exec (handleDeleteMessage id) s) = files s.
Proof. unfold handleDeleteMessage, setMessages, call. by run_cases. Qed.

Lemma remote_delete_all_messages_files (s : Sys W) :
  files (exec handleDeleteAllMessages s) = files s.
Proof.
  unfold handleDeleteAllMessages, setIsLoading, setMessages, call.
  by run_cases.
Qed.

Lemma remote_upload_messages (fs : option (list File)) (s : Sys W) :
  messages (exec (handleFileUpload fs) s) = messages s.
Proof.
  destruct fs as [fs |]; [| done].
  by destruct (remote_upload_run fs s) as (evs & w & -> & _).
Qed.

Lemma remote_delete_file_messages (file : FileItem) (s : Sys W) :
  messages (exec (handleDeleteFile file) s) = messages s.
Proof.
  unfold exec. rewrite remote_delete_file_run.
  destruct (removeBlobOf_spec file s) as (removal & w1 & -> & _).
  cbn. by destruct (files_delete_eq (f_id file) w1).
Qed.

Lemma remote_delete_all_files_messages (s : Sys W) :
  messages (exec handleDeleteAllFiles s) = messages s.
Proof.
  unfold handleDeleteAllFiles, setIsLoading, setFiles, call.
  by run_cases.
Qed.
End RemoteRuns.

(** ** The local handlers, run *)

Lemma local_keys_differ : Local.MESSAGES_KEY ≠ Local.FILES_KEY.
Proof. discriminate. Qed.

Section LocalRuns.
Context {W : Type} `{!Local.Env W}.
Import Local.

Lemma local_save_blank (s : Sys W) :
  trim (text s) = [] → handleSave s = (tt, s).
Proof.
  intros Hblank. unfold handleSave. run_prog. by rewrite Hblank.
Qed.

Lemma local_save_run (s : Sys W) :
  trim (text s) ≠ [] →
  ∀ id w1 createdAt w2,
    randomUUID (world s) = (id, w1) →
    now_toISOString w1 = (createdAt, w2) →
    let ms := mkMessage id (trim (text s)) createdAt :: messages s in
    exec handleSave s =
      mkSys [] ms (files s) (isLoading s) (fileInput s)
            (<[MESSAGES_KEY := StoredMessages ms]> (storage s)) w2.
Proof.
  intros Hne id w1 createdAt w2 Hid Hnow. apply truthy_true in Hne.
  unfold handleSave, setMessages, setText, call. run_prog.
  rewrite Hne. cbn. rewrite Hid. cbn. by rewrite Hnow.
Qed.

(** The reading loop touches only the outside world.  When every read
    resolves it adds one item per file of the batch, in the order of the
    batch; when one does not, it never ends. *)
Lemma readFiles_spec (fs : list File) (acc : list FileItem) (s : Sys W) :
  ∃ w,
    (reads_resolve fs (world s)
     ∧ ∃ new,
         readFiles fs acc s =
           (Some (acc ++ new),
            mkSys (text s) (messages s) (files s) (isLoading s) (fileInput s)
                  (storage s) w)
         ∧ Forall2 describes new fs)
    ∨ (¬ reads_resolve fs (world s)
       ∧ readFiles fs acc s =
           (None,
            mkSys (text s) (messages s) (files s) (isLoading s) (fileInput s)
                  (storage s) w)).
Proof.
  revert acc s. induction fs as [| file fs IH]; intros acc s.
  - exists (world s). left. split; [done |]. exists []. cbn.
    rewrite app_nil_r. split; [by destruct s | constructor].
  - cbn [readFiles reads_resolve]. unfold call. run_prog.
    destruct (readAsDataURL file (world s)) as [[fileData |] w1] eqn:Hread;
      cbn.
    + destruct (randomUUID w1) as [id w2] eqn:Hid. cbn.
      destruct (now_toISOString w2) as [createdAt w3] eqn:Hnow. cbn.
      set (item := mkFileItem _ _ _ _ _ _).
      destruct (IH (acc ++ [item])
                   (mkSys (text s) (messages s) (files s) (isLoading s)
                          (fileInput s) (storage s) w3))
        as (w & [(Hres & new & -> & Hitems) | (Hnot & ->)]);
        exists w; cbn in *.
      * left. split.
        { exists fileData, w1. split; [done |].
          rewrite Hid. cbn. by rewrite Hnow. }
        exists (item :: new). rewrite <- app_assoc. split; [done |].
        by constructor.
      * right. split; [| done].
        intros (d & w' & Heq & Hres). injection Heq as <- <-.
        apply Hnot. rewrite Hid in Hres. cbn in Hres.
        by rewrite Hnow in Hres.
    + exists w1. right. split; [| done].
      by intros (d & w' & Heq & _).
Qed.

(** When every read resolves the whole batch goes in front of the list, in
    the order of the batch; when one does not, the handler stays where it
    is: the busy flag is up and the list and the store are untouched. *)
Lemma local_upload_run (fs : list File) (s : Sys W) :
  ∃ w,
    (reads_resolve fs (world s)
     ∧ ∃ new,
         exec (handleFileUpload (Some fs)) s =
           mkSys (text s) (messages s) (new ++ files s) false
                 (match fileInput s with Some _ => Some [] | None => None end)
                 (<[FILES_KEY := StoredFiles (new ++ files s)]> (storage s)) w
         ∧ Forall2 describes new fs)
    ∨ (¬ reads_resolve fs (world s)
       ∧ exec (handleFileUpload (Some fs)) s =
           mkSys (text s) (messages s) (files s) true (fileInput s)
                 (storage s) w).
Proof.
  unfold handleFileUpload, setIsLoading, setFiles, resetFileInput.
  run_prog.
  destruct (readFiles_spec fs []
              (mkSys (text s) (messages s) (files s) true (fileInput s)
                     (storage s) (world s)))
    as (w & [(Hres & new & -> & Hitems) | (Hnot & ->)]); exists w; cbn in *.
  - left. split; [done |]. by exists new.
  - by right.
Qed.

(** The other list and what is stored under its key, after each handler. *)

Lemma local_save_files (s : Sys W) :
  files (exec handleSave s) = files s
  ∧ storage (exec handleSave s) !! FILES_KEY = storage s !! FILES_KEY.
Proof.
  unfold handleSave, setMessages, setText, call. run_cases;
    by rewrite ?(lookup_insert_ne _ _ _ _ local_keys_differ).
Qed.

Lemma local_delete_message_files (id : jsstring) (s : Sys W) :
  files (exec (handleDeleteMessage id) s) = files s
  ∧ storage (exec (handleDeleteMessage id) s) !! FILES_KEY
    = storage s !! FILES_KEY.
Proof.
  cbn. by rewrite (lookup_insert_ne _ _ _ _ local_keys_differ).
Qed.

Lemma local_delete_all_messages_files (s : Sys W) :
  files (exec handleDeleteAllMessages s) = files s
  ∧ storage (exec handleDeleteAllMessages s) !! FILES_KEY
    = storage s !! FILES_KEY.
Proof.
  unfold handleDeleteAllMessages, setMessages, call. run_cases;
    by rewrite ?(lookup_insert_ne _ _ _ _ local_keys_differ).
Qed.

Lemma local_upload_messages (fs : option (list File)) (s : Sys W) :
  messages (exec (handleFileUpload fs) s) = messages s
  ∧ storage (exec (handleFileUpload fs) s) !! MESSAGES_KEY
    = storage s !! MESSAGES_KEY.
Proof.
  destruct fs as [fs |]; [| done].
  destruct (local_upload_run fs s)
    as (w & [(_ & new & -> & _) | (_ & ->)]); cbn; [| done].
  by rewrite (lookup_insert_ne _ _ _ _ (not_eq_sym local_keys_differ)).
Qed.

Lemma local_delete_file_messages (id : jsstring) (s : Sys W) :
  messages (exec (handleDeleteFile id) s) = messages s
  ∧ storage (exec (handleDeleteFile id) s) !! MESSAGES_KEY
    = storage s !! MESSAGES_KEY.
Proof.
  cbn. by rewrite (lookup_insert_ne _ _ _ _ (not_eq_sym local_keys_differ)).
Qed.

Lemma local_delete_all_files_messages (s : Sys W) :
  messages (exec handleDeleteAllFiles s) = messages s
  ∧ storage (exec handleDeleteAllFiles s) !! MESSAGES_KEY
    = storage s !! MESSAGES_KEY.
Proof.
  unfold handleDeleteAllFiles, setFiles, call. run_cases;
    by rewrite ?(lookup_insert_ne _ _ _ _ (not_eq_sym local_keys_differ)).
Qed.

(** The store mirrors the component at startup and after every action. *)

Lemma mount_mirrored (st : gmap jsstring Stored) (w : W) :
  mirrored (mount st w).
Proof. done. Qed.

Lemma setMessages_mirrored (f : list Message → list Message) (s : Sys W) :
  mirrored s → mirrored (exec (setMessages f) s).
Proof.
  intros [_ Hf]. unfold mirrored, getStoredMessages, getStoredFiles in *.
  cbn. rewrite lookup_insert_eq.
  by rewrite (lookup_insert_ne _ _ _ _ local_keys_differ).
Qed.

Lemma setFiles_mirrored (f : list FileItem → list FileItem) (s : Sys W) :
  mirrored s → mirrored (exec (setFiles f) s).
Proof.
  intros [Hm _]. unfold mirrored, getStoredMessages, getStoredFiles in *.
  cbn. rewrite lookup_insert_eq.
  by rewrite (lookup_insert_ne _ _ _ _ (not_eq_sym local_keys_differ)).
Qed.

(** A step that leaves the two lists and the store alone. *)
Lemma mirrored_frame (s s' : Sys W) :
  messages s' = messages s → files s' = files s → storage s' = storage s →
  mirrored s → mirrored s'.
Proof. unfold mirrored. by intros -> -> ->. Qed.

Lemma dispatch_mirrored (a : Action) (s : Sys W) :
  mirrored s → mirrored (exec (dispatch a) s).
Proof.
  intros Hs. destruct a as [v | | | id | | fs | id |]; cbn [dispatch].
  - by apply (mirrored_frame s).
  - by apply (mirrored_frame s).
  - destruct (decide (trim (text s) = [])) as [Hblank | Hne].
    + unfold exec. by rewrite (local_save_blank s Hblank).
    + destruct (randomUUID (world s)) as [id w1] eqn:Hid.
      destruct (now_toISOString w1) as [createdAt w2] eqn:Hnow.
      rewrite (local_save_run s Hne id w1 createdAt w2 Hid Hnow).
      destruct Hs as [_ Hf].
      unfold mirrored, getStoredMessages, getStoredFiles in *. cbn.
      rewrite lookup_insert_eq.
      by rewrite (lookup_insert_ne _ _ _ _ local_keys_differ).
  - by apply setMessages_mirrored.
  - unfold handleDeleteAllMessages, call. run_prog.
    destruct (confirm ConfirmDeleteAllMessages (world s)) as [[|] w]; cbn.
    + by apply (setMessages_mirrored (λ _, [])
                  (mkSys (text s) (messages s) (files s) (isLoading s)
                         (fileInput s) (storage s) w)).
    + by apply (mirrored_frame s).
  - destruct fs as [fs |]; [| done].
    destruct (local_upload_run fs s)
      as (w & [(_ & new & -> & _) | (_ & ->)]);
      [| by apply (mirrored_frame s)].
    destruct Hs as [Hm _].
    unfold mirrored, getStoredMessages, getStoredFiles in *. cbn.
    rewrite lookup_insert_eq.
    by rewrite (lookup_insert_ne _ _ _ _ (not_eq_sym local_keys_differ)).
  - by apply setFiles_mirrored.
  - unfold handleDeleteAllFiles, call. run_prog.
    destruct (confirm ConfirmDeleteAllFiles (world s)) as [[|] w]; cbn.
    + by apply (setFiles_mirrored (λ _, [])
                  (mkSys (text s) (messages s) (files s) (isLoading s)
                         (fileInput s) (storage s) w)).
    + by apply (mirrored_frame s).
Qed.

Lemma session_mirrored (acts : list Action) (s : Sys W) :
  mirrored s → mirrored (exec (session acts) s).
Proof.
  revert s. induction acts as [| a acts IH]; intros s Hs; [done |].
  unfold session. cbn [for_of]. rewrite exec_bind.
  apply IH. by apply dispatch_mirrored.
Qed.
End LocalRuns.

Example reload_after_session :
  let acts := [Local.Typing (js " first "); Local.Save;
               Local.Upload (Some [Fake.a_txt; Fake.b_png]);
               Local.Typing (js "second"); Local.Save;
               Local.DeleteMessage (js "uuid0");
               Local.DeleteAllFiles] in
  let s := exec (Local.session acts) (Local.mount ∅ (Fake.mkWorld 0 [])) in
  Local.m_content <$> Local.messages s = [js "second"]
  ∧ Local.files s = []
  ∧ Local.messages (Local.reload s) = Local.messages s.
Proof. vm_compute. done. Qed.

(** ** Tail segments *)

Lemma cut_at_first (x : N) (l1 r1 l2 r2 : list N) :
  x ∉ l1 → x ∉ l2 → l1 ++ x :: r1 = l2 ++ x :: r2 → l1 = l2.
Proof.
  revert l2. induction l1 as [| a l1 IH]; intros [| b l2] Hl1 Hl2 Heq;
    cbn in Heq; [done | | |].
  - injection Heq as <- _. exfalso. apply Hl2. left.
  - injection Heq as -> _. exfalso. apply Hl1. left.
  - injection Heq as <- Heq. f_equal.
    apply not_elem_of_cons in Hl1 as [_ Hl1].
    apply not_elem_of_cons in Hl2 as [_ Hl2]. by apply IH.
Qed.

(** A string has one tail segment, the one [split] and [pop] give. *)
Lemma tail_segment_pop (url key : jsstring) :
  tail_segment url key ↔ pop (split 47 url) = Some key.
Proof.
  destruct (split_pop_tail_segment url) as (k & Hk & Hno & Hcut).
  split; [| by intros Hpop; rewrite Hpop in Hk; injection Hk as <-].
  intros [Hno' Hcut']. rewrite Hk. f_equal.
  destruct Hcut as [-> | [p ->]], Hcut' as [Heq | [p' Heq]]; [done | | |].
  - exfalso. apply Hno. rewrite Heq, elem_of_app. right. left.
  - exfalso. apply Hno'. rewrite <- Heq, elem_of_app. right. left.
  - apply (f_equal reverse) in Heq.
    rewrite !reverse_app, !reverse_cons, <- !app_assoc in Heq. cbn in Heq.
    apply cut_at_first in Heq; [| by rewrite elem_of_reverse ..].
    apply (f_equal reverse) in Heq. by rewrite !reverse_involutive in Heq.
Qed.

(** The blob removal of [handleDeleteFile] is issued exactly when the tail
    segment of the URL is not empty, for that segment, and is then the only
    call. *)
Lemma removeBlobOf_exact {W : Type} `{!Remote.Env W}
    (file : Remote.FileItem) (s : Remote.Sys W) :
  ∃ key removal w,
    tail_segment (Remote.f_url file) key
    ∧ exec (removeBlobOf file) s =
        Remote.mkSys (Remote.text s) (Remote.messages s) (Remote.files s)
                     (Remote.isLoading s) (Remote.isSyncing s)
                     (Remote.fileInput s) w (Remote.log s ++ removal)
    ∧ (key = [] → removal = [])
    ∧ (key ≠ [] → ∃ e, removal = [Remote.ERemoveBlobs [key] e]).
Proof.
  unfold removeBlobOf.
  destruct (split_pop_tail_segment (Remote.f_url file)) as (key & -> & Htail).
  exists key. destruct key as [| c key]; cbn [truthy].
  - exists [], (Remote.world s). run_prog. rewrite app_nil_r.
    split; [done |]. split; [by destruct s | done].
  - unfold Remote.call. run_prog.
    destruct (Remote.storage_remove _ (Remote.world s)) as [e w].
    cbn. exists [Remote.ERemoveBlobs [c :: key] e], w.
    split; [done |]. split; [done |]. split; [done | by exists e].
Qed.

(** * The claims *)

(** C1. The local variant's [uploadFiles] on a batch of two files, read one
    after the other so that the second gets the later [createdAt]: the file
    list it leaves has the earlier item first, so it is not newest first.
    (The remote variant, which prepends each row as it arrives, leaves the
    same batch newest first.) *)
Theorem C1_local_batch_upload_is_oldest_first :
  let s := exec (Local.handleFileUpload (Some [Fake.a_txt; Fake.b_png]))
                (Local.mount ∅ (Fake.mkWorld 0 [])) in
  Local.f_name <$> Local.files s = [js "a.txt"; js "b.png"]
  ∧ Local.f_createdAt <$> Local.files s
    = [js "2024-01-01T00:00:00.002Z"; js "2024-01-01T00:00:00.005Z"]
  ∧ newest_first (Local.f_createdAt <$> Local.files s) = false
  ∧ newest_first
      (Remote.f_created_at <$>
         Remote.files (exec (Remote.handleFileUpload
                               (Some [Fake.a_txt; Fake.b_png]))
                            (Fake.remote0 [])))
    = true.
Proof. vm_compute. done. Qed.

(** C2. Saving a text [T] whose trimmed form is not empty, when the save
    succeeds (remote variant: the store answers with a row and no error, the
    row being the created one, with the content it was sent; local variant:
    always), puts exactly one new message at the front of the list, with
    content [trim T], leaves the messages already listed as they were, in
    their order, and clears the input.  In the remote variant exactly one
    insert was issued, with [trim T]; in the local variant the new list is
    what the store holds. *)
Theorem C2_save_prepends_trimmed_message :
  (∀ (W : Type) (E : Remote.Env W) (s : Remote.Sys W) r w d,
      trim (Remote.text s) ≠ [] →
      Remote.messages_insert (trim (Remote.text s)) (Remote.world s) = (r, w) →
      Remote.data r = Some d → Remote.error r = None →
      Remote.m_content d = trim (Remote.text s) →
      let s' := exec Remote.handleSave s in
      ∃ m, Remote.messages s' = m :: Remote.messages s
           ∧ Remote.m_content m = trim (Remote.text s)
           ∧ Remote.text s' = []
           ∧ Remote.log s' =
               Remote.log s ++ [Remote.EInsertMessage (trim (Remote.text s)) r])
  ∧ (∀ (W : Type) (E : Local.Env W) (s : Local.Sys W),
      trim (Local.text s) ≠ [] →
      let s' := exec Local.handleSave s in
      ∃ m, Local.messages s' = m :: Local.messages s
           ∧ Local.m_content m = trim (Local.text s)
           ∧ Local.text s' = []
           ∧ Local.storage s' !! Local.MESSAGES_KEY
             = Some (Local.StoredMessages (m :: Local.messages s))).
Proof.
  split.
  - intros W E s r w d Hne Hins Hdata Herr Hecho s'. subst s'.
    rewrite (remote_save_run s Hne r w Hins), Hdata, Herr. cbn.
    exists d. by repeat split.
  - intros W E s Hne s'. subst s'.
    destruct (Local.randomUUID (Local.world s)) as [id w1] eqn:Hid.
    destruct (Local.now_toISOString w1) as [createdAt w2] eqn:Hnow.
    rewrite (local_save_run s Hne id w1 createdAt w2 Hid Hnow). cbn.
    eexists. repeat split. by rewrite lookup_insert_eq.
Qed.

Lemma C2_save_prepends_trimmed_message_witness :
  let s := Remote.mkSys (js "  hi ") [] [] false false (Some [])
                        (Fake.mkWorld 0 []) [] in
  let t := Local.mkSys (js "  hi ") [] [] false (Some []) ∅ (Fake.mkWorld 0 []) in
  (trim (Remote.text s) ≠ []
   ∧ ∃ m, Remote.messages (exec Remote.handleSave s) = m :: Remote.messages s
          ∧ Remote.m_content m = js "hi"
          ∧ Remote.text (exec Remote.handleSave s) = [])
  ∧ (trim (Local.text t) ≠ []
     ∧ ∃ m, Local.messages (exec Local.handleSave t) = m :: Local.messages t
            ∧ Local.m_content m = js "hi"
            ∧ Local.text (exec Local.handleSave t) = []).
Proof.
  intros s t. split; (split; [discriminate |]).
  - destruct (proj1 C2_save_prepends_trimmed_message Fake.World Fake.remote s
                (Remote.mkResponse
                   (Some (Remote.mkMessage (js "m0") (js "hi")
                            (js "2024-01-01T00:00:00.000Z"))) None)
                (Fake.mkWorld 1 [])
                (Remote.mkMessage (js "m0") (js "hi")
                   (js "2024-01-01T00:00:00.000Z")))
      as (m & Hm & Hc & Ht & _);
      [discriminate | reflexivity | reflexivity | reflexivity | reflexivity |].
    exists m. repeat split; assumption.
  - destruct (proj2 C2_save_prepends_trimmed_message Fake.World Fake.browser t)
      as (m & Hm & Hc & Ht & _); [discriminate |].
    exists m. repeat split; assumption.
Defined.

(** C3. Remote variant, [uploadFiles] over a batch of [N] files.  When, among
    the calls the upload issued, exactly one blob upload failed and no row
    insert failed, the upload of every file of the batch was attempted, in
    the order of the batch (the failure did not end the loop), and exactly
    [N - 1] new entries were put in front of the file list: the rows the
    inserts returned, the latest first. *)
Theorem C3_one_failed_upload_skips_one_file :
  ∀ (W : Type) (E : Remote.Env W) (s : Remote.Sys W) (fs : list File)
    (evs : list Remote.Event),
    let s' := exec (Remote.handleFileUpload (Some fs)) s in
    Remote.log s' = Remote.log s ++ evs →
    Log.count Log.is_failed_upload evs = 1%nat →
    Log.count Log.is_failed_insert_file evs = 0%nat →
    Log.uploads evs = fs
    ∧ ∃ new, Remote.files s' = new ++ Remote.files s
             ∧ length new = (length fs - 1)%nat
             ∧ new = reverse (omap Log.inserted_file evs)
             ∧ length (Remote.files s')
               = (length (Remote.files s) + length fs - 1)%nat.
Proof.
  intros W E s fs evs s' Hlog Hone Hnone. subst s'.
  destruct (remote_upload_run fs s) as (evs' & w & Hrun & Hup & Hcnt).
  rewrite Hrun in *. cbn in Hlog. apply app_inv_head in Hlog as ->.
  rewrite count_insert_file, Hone, Hnone in Hcnt.
  split; [done |]. eexists. split; [reflexivity |].
  cbn. rewrite length_app, length_reverse. repeat split; lia.
Qed.

Lemma C3_one_failed_upload_skips_one_file_witness :
  let s := Fake.remote0 [4%nat] in
  let fs := [Fake.a_txt; Fake.b_png; Fake.c_pdf] in
  let s' := exec (Remote.handleFileUpload (Some fs)) s in
  Log.count Log.is_failed_upload (Remote.log s') = 1%nat
  ∧ Log.count Log.is_failed_insert_file (Remote.log s') = 0%nat
  ∧ Log.uploads (Remote.log s') = fs
  ∧ Remote.f_name <$> Remote.files s' = [js "c.pdf"; js "a.txt"]
  ∧ length (Remote.files s') = 2%nat.
Proof.
  intros s fs s'.
  split; [reflexivity |]. split; [reflexivity |].
  destruct (C3_one_failed_upload_skips_one_file Fake.World Fake.remote s fs
              (Remote.log s') eq_refl eq_refl eq_refl)
    as (Hup & new & _ & _ & _ & Hlen).
  split; [exact Hup |]. split; [reflexivity | exact Hlen].
Defined.

(** C4. Remote variant.  When the insert of [saveMessage] fails (the store
    answers with an error or without a row), the message list and the input
    text are what they were before the save; when the delete of
    [deleteMessage] fails, the message list is what it was. *)
Theorem C4_failed_mutation_leaves_state :
  ∀ (W : Type) (E : Remote.Env W) (s : Remote.Sys W),
    (∀ r w,
        Remote.messages_insert (trim (Remote.text s)) (Remote.world s) = (r, w) →
        Remote.data r = None ∨ Remote.error r ≠ None →
        Remote.messages (exec Remote.handleSave s) = Remote.messages s
        ∧ Remote.text (exec Remote.handleSave s) = Remote.text s)
    ∧ (∀ id e w,
        Remote.messages_delete_eq id (Remote.world s) = (Some e, w) →
        Remote.messages (exec (Remote.handleDeleteMessage id) s)
        = Remote.messages s).
Proof.
  intros W E s. split.
  - intros r w Hins Hfail.
    destruct (decide (trim (Remote.text s) = [])) as [Hblank | Hne].
    + unfold exec. by rewrite (remote_save_blank s Hblank).
    + rewrite (remote_save_run s Hne r w Hins).
      destruct Hfail as [-> | Herr]; [done |].
      destruct (Remote.data r), (Remote.error r); done.
  - intros id e w Hdel.
    by rewrite (remote_delete_message_run s id (Some e) w Hdel).
Qed.

Lemma C4_failed_mutation_leaves_state_witness :
  let s := Remote.mkSys (js "note") [Remote.mkMessage (js "m9") (js "old") (js "t")]
                        [] false false (Some []) (Fake.mkWorld 0 [0%nat]) [] in
  Remote.messages_insert (trim (Remote.text s)) (Remote.world s)
  = (Remote.mkResponse None Fake.failure, Fake.mkWorld 1 [0%nat])
  ∧ Remote.messages (exec Remote.handleSave s) = Remote.messages s
  ∧ Remote.text (exec Remote.handleSave s) = js "note"
  ∧ Remote.messages (exec (Remote.handleDeleteMessage (js "m9")) s)
    = Remote.messages s.
Proof.
  intros s. split; [reflexivity |].
  destruct (C4_failed_mutation_leaves_state Fake.World Fake.remote s)
    as [Hsave Hdel].
  destruct (Hsave (Remote.mkResponse None Fake.failure) (Fake.mkWorld 1 [0%nat]))
    as [Hm Ht]; [reflexivity | left; reflexivity |].
  split; [exact Hm | split; [exact Ht |]].
  apply (Hdel (js "m9") (js "failed") (Fake.mkWorld 1 [0%nat])). reflexivity.
Defined.

(** C5. [formatFileSize], the same function in both components, on the byte
    count of a file (an integer below [2^53]).  Below 1024 it is the decimal
    byte count followed by [" B"].  From 1024 and below 1,048,576 it is
    [bytes / 1024] rendered with one decimal, followed by [" KB"]: with [n]
    the number of tenths nearest to the quotient (the upper one of two), the
    digits of [n / 10], a point and the digit [n mod 10].  From 1,048,576 on
    it is the same of [bytes / 1,048,576], followed by [" MB"].  At the
    boundaries: ["1023 B"], ["1.0 KB"], ["1.0 MB"]. *)
Theorem C5_formatFileSize_ranges :
  ∀ bytes : N,
    Remote.formatFileSize bytes = Local.formatFileSize bytes
    ∧ (bytes < 1024 →
       Local.formatFileSize bytes = Some (Number_toString bytes ++ js " B"))
    ∧ (1024 ≤ bytes < 1048576 →
       ∃ n, 1024 * n ≤ 10 * bytes + 512 < 1024 * (n + 1)
            ∧ Local.formatFileSize bytes
              = Some (Number_toString (n / 10) ++ js "."
                      ++ Number_toString (n mod 10) ++ js " KB"))
    ∧ (1048576 ≤ bytes < 2 ^ 53 →
       ∃ n, 1048576 * n ≤ 10 * bytes + 524288 < 1048576 * (n + 1)
            ∧ Local.formatFileSize bytes
              = Some (Number_toString (n / 10) ++ js "."
                      ++ Number_toString (n mod 10) ++ js " MB"))
    ∧ Local.formatFileSize 1023 = Some (js "1023 B")
    ∧ Local.formatFileSize 1024 = Some (js "1.0 KB")
    ∧ Local.formatFileSize 1048576 = Some (js "1.0 MB").
Proof.
  intros bytes. split; [reflexivity |].
  unfold Local.formatFileSize, div_toFixed1.
  change (1024 * 1024) with 1048576.
  change (10 ^ 21 * 1024) with 1024000000000000000000000.
  change (10 ^ 21 * 1048576) with 1048576000000000000000000000.
  change (2 ^ 53) with 9007199254740992.
  split; [| split; [| split]].
  - intros Hlt. apply N.ltb_lt in Hlt. by rewrite Hlt.
  - intros [Hge Hlt].
    assert ((bytes <? 1024) = false) as -> by (apply N.ltb_ge; lia).
    assert ((bytes <? 1048576) = true) as -> by (apply N.ltb_lt; lia).
    assert ((1024000000000000000000000 <=? bytes) = false) as ->
      by (apply N.leb_gt; lia).
    exists (nearest_tenth bytes 1024). split.
    + pose proof (nearest_tenth_spec bytes 1024 ltac:(done)). lia.
    + cbn [fmap option_fmap option_map].
      by rewrite fixed1_digits_spec, <- !app_assoc.
  - intros [Hge Hlt].
    assert ((bytes <? 1024) = false) as -> by (apply N.ltb_ge; lia).
    assert ((bytes <? 1048576) = false) as -> by (apply N.ltb_ge; lia).
    assert ((1048576000000000000000000000 <=? bytes) = false) as ->
      by (apply N.leb_gt; lia).
    exists (nearest_tenth bytes 1048576). split.
    + pose proof (nearest_tenth_spec bytes 1048576 ltac:(done)). lia.
    + cbn [fmap option_fmap option_map].
      by rewrite fixed1_digits_spec, <- !app_assoc.
  - by vm_compute.
Qed.

Lemma C5_formatFileSize_ranges_witness :
  ((1000 < 1024) ∧ Local.formatFileSize 1000 = Some (js "1000 B"))
  ∧ ((1024 ≤ 1587 < 1048576)
     ∧ ∃ n, (1024 * n ≤ 10 * 1587 + 512 < 1024 * (n + 1))
            ∧ Local.formatFileSize 1587 = Some (js "1.5 KB"))
  ∧ ((1048576 ≤ 5767168 < 2 ^ 53)
     ∧ Remote.formatFileSize 5767168 = Some (js "5.5 MB")).
Proof.
  split; [| split].
  - split; [reflexivity |].
    destruct (C5_formatFileSize_ranges 1000) as (_ & Hb & _).
    rewrite Hb; reflexivity.
  - split; [split; [discriminate | reflexivity] |].
    destruct (C5_formatFileSize_ranges 1587) as (_ & _ & Hkb & _).
    destruct Hkb as (n & Hn & Hfmt); [split; [discriminate | reflexivity] |].
    exists n. split; [exact Hn |].
    rewrite Hfmt. assert (n = 15) as -> by lia. reflexivity.
  - split; [split; [discriminate | reflexivity] |].
    destruct (C5_formatFileSize_ranges 5767168) as (-> & _ & _ & Hmb & _).
    destruct Hmb as (n & Hn & Hfmt); [split; [discriminate | reflexivity] |].
    rewrite Hfmt. assert (n = 55) as -> by lia. reflexivity.
Defined.

(** C6. A successful [deleteMessage(id)] (remote variant: the row delete
    answers without an error; local variant: always) leaves exactly the
    messages whose id is not [id], in their order: a message is listed
    afterwards iff it was listed and its id differs; the new list is a
    sublist of the old; when one listed message has the id, the list is the
    old one without it; when none has, the list is unchanged. *)
Theorem C6_delete_message_removes_exactly :
  (∀ (W : Type) (E : Remote.Env W) (s : Remote.Sys W) (id : jsstring) w,
      Remote.messages_delete_eq id (Remote.world s) = (None, w) →
      removes_exactly Remote.m_id id (Remote.messages s)
        (Remote.messages (exec (Remote.handleDeleteMessage id) s)))
  ∧ (∀ (W : Type) (E : Local.Env W) (s : Local.Sys W) (id : jsstring),
      removes_exactly Local.m_id id (Local.messages s)
        (Local.messages (exec (Local.handleDeleteMessage id) s))).
Proof.
  split.
  - intros W E s id w Hdel.
    rewrite (remote_delete_message_run s id None w Hdel). cbn.
    apply filter_removes_exactly.
  - intros W E s id. cbn. apply filter_removes_exactly.
Qed.

Lemma C6_delete_message_removes_exactly_witness :
  let a := Remote.mkMessage (js "a") (js "one") (js "t3") in
  let b := Remote.mkMessage (js "b") (js "two") (js "t2") in
  let c := Remote.mkMessage (js "c") (js "three") (js "t1") in
  let s := Remote.mkSys [] [a; b; c] [] false false (Some [])
                        (Fake.mkWorld 0 []) [] in
  Remote.messages_delete_eq (js "b") (Remote.world s) = (None, Fake.mkWorld 1 [])
  ∧ Remote.messages (exec (Remote.handleDeleteMessage (js "b")) s) = [a; c]
  ∧ Remote.messages (exec (Remote.handleDeleteMessage (js "zz")) s) = [a; b; c].
Proof.
  intros a b c s. split; [reflexivity |]. split.
  - destruct (proj1 C6_delete_message_removes_exactly Fake.World Fake.remote s
                (js "b") (Fake.mkWorld 1 []) eq_refl) as (_ & _ & Hone & _).
    apply (Hone [a] b [c]); [reflexivity | reflexivity |].
    intros y Hy. apply list_elem_of_In in Hy.
    destruct Hy as [<- | [<- | []]]; discriminate.
  - destruct (proj1 C6_delete_message_removes_exactly Fake.World Fake.remote s
                (js "zz") (Fake.mkWorld 1 []) eq_refl) as (_ & _ & _ & Hnone).
    apply Hnone. intros y Hy. apply list_elem_of_In in Hy.
    destruct Hy as [<- | [<- | [<- | []]]]; discriminate.
Defined.

(** C7. Remote variant, [deleteFile(file)].  The URL of the file has one
    tail segment, the storage key.  When the key is not empty the blob
    removal is issued, once, under that key; when it is empty no removal is
    issued.  Whatever the store answers to the removal, exactly one delete
    of the metadata row of the file's id follows: the row delete is issued
    whether the blob removal succeeded or failed.  The file list becomes the
    list without the items of that id when the row delete answers without an
    error, and stays as it was when it answers with one. *)
Theorem C7_delete_file_best_effort_blob_removal :
  ∀ (W : Type) (E : Remote.Env W) (s : Remote.Sys W) (file : Remote.FileItem),
    let s' := exec (Remote.handleDeleteFile file) s in
    ∃ removal err,
      Remote.log s' =
        Remote.log s ++ removal ++ [Remote.EDeleteFile (Remote.f_id file) err]
      ∧ (∀ ev, ev ∈ removal →
               ∃ key e, ev = Remote.ERemoveBlobs [key] e
                        ∧ tail_segment (Remote.f_url file) key)
      ∧ (length removal ≤ 1)%nat
      ∧ (∃ key, tail_segment (Remote.f_url file) key)
      ∧ (∀ key, tail_segment (Remote.f_url file) key → key ≠ [] →
                ∃ e, removal = [Remote.ERemoveBlobs [key] e])
      ∧ (∀ key, tail_segment (Remote.f_url file) key → key = [] →
                removal = [])
      ∧ (err = None →
         Remote.files s' =
           filter (λ f, Remote.f_id f ≠ Remote.f_id file) (Remote.files s))
      ∧ (err ≠ None → Remote.files s' = Remote.files s).
Proof.
  intros W E s file s'. subst s'. unfold exec.
  rewrite remote_delete_file_run.
  destruct (removeBlobOf_exact file s)
    as (key & removal & w1 & Htail & -> & Hempty & Hissued).
  cbn.
  destruct (Remote.files_delete_eq (Remote.f_id file) w1) as [err w] eqn:Hdel.
  cbn. exists removal, err. rewrite <- app_assoc.
  assert (∀ key', tail_segment (Remote.f_url file) key' → key' = key)
    as Hunique.
  { intros key' Htail'. apply tail_segment_pop in Htail, Htail'.
    rewrite Htail in Htail'. by injection Htail' as <-. }
  split; [done |]. split; [| split; [| split; [| split; [| split]]]].
  - intros ev Hev. destruct (decide (key = [])) as [Hkey | Hkey].
    + rewrite (Hempty Hkey) in Hev. by apply not_elem_of_nil in Hev.
    + destruct (Hissued Hkey) as [e ->].
      apply list_elem_of_singleton in Hev as ->. by exists key, e.
  - destruct (decide (key = [])) as [Hkey | Hkey].
    + rewrite (Hempty Hkey). cbn. lia.
    + by destruct (Hissued Hkey) as [e ->].
  - by exists key.
  - intros key' Htail' Hne. rewrite (Hunique key' Htail') in *.
    by apply Hissued.
  - intros key' Htail' Hnil. rewrite (Hunique key' Htail') in *.
    by apply Hempty.
  - split; [by intros -> | by destruct err].
Qed.

Lemma C7_delete_file_best_effort_blob_removal_witness :
  let f := Remote.mkFileItem (js "f1") (js "a.txt") 3 (js "text/plain")
             (js "https://kho.example/files/k1.txt") (js "t1") in
  let g := Remote.mkFileItem (js "f2") (js "b.png") 9 (js "image/png")
             (js "https://kho.example/files/k2.png") (js "t0") in
  let s := Remote.mkSys [] [] [f; g] false false (Some [])
                        (Fake.mkWorld 0 [0%nat]) [] in
  let s' := exec (Remote.handleDeleteFile f) s in
  Remote.log s' = [Remote.ERemoveBlobs [js "k1.txt"] Fake.failure;
                   Remote.EDeleteFile (js "f1") None]
  ∧ Remote.files s' = [g].
Proof.
  intros f g s s'.
  destruct (C7_delete_file_best_effort_blob_removal Fake.World Fake.remote s f)
    as (removal & err & Hlog & _ & _ & _ & _ & _ & Hok & _).
  change (Remote.log (exec (Remote.handleDeleteFile f) s))
    with ([] ++ [Remote.ERemoveBlobs [js "k1.txt"] Fake.failure]
             ++ [Remote.EDeleteFile (js "f1") None]) in Hlog.
  split; [reflexivity |].
  apply app_inv_head in Hlog.
  assert (err = None) as Herr.
  { apply (f_equal (@last _)) in Hlog. rewrite !last_snoc in Hlog.
    by injection Hlog as <-. }
  exact (Hok Herr).
Defined.

(** C8. Local variant.  Start from any content of the persistent store, run
    any finite sequence of actions (typing, reset, save, delete, delete all,
    upload, on messages and on files), and reload the page: the message and
    file lists read back from the store under the two keys are the lists the
    session left in memory. *)
Theorem C8_local_reload_round_trip :
  ∀ (W : Type) (E : Local.Env W) (st : gmap jsstring Local.Stored) (w : W)
    (acts : list Local.Action),
    let s := exec (Local.session acts) (Local.mount st w) in
    Local.messages (Local.reload s) = Local.messages s
    ∧ Local.files (Local.reload s) = Local.files s.
Proof.
  intros W E st w acts s.
  exact (session_mirrored acts (Local.mount st w) (mount_mirrored st w)).
Qed.

(** C9. Saving a text whose trimmed form is empty does nothing at all, in
    both variants: the component state (so the message list), the outside
    world and the log of store calls (so no insert was issued) and, in the
    local variant, the persistent store are what they were.  And whatever the
    text, a save never sends the store, nor lists, a content whose trimmed
    form is empty. *)
Theorem C9_blank_save_is_noop :
  (∀ (W : Type) (E : Remote.Env W) (s : Remote.Sys W),
      (trim (Remote.text s) = [] →
       Remote.handleSave s = (tt, s)
       ∧ Remote.messages (exec Remote.handleSave s) = Remote.messages s
       ∧ Remote.log (exec Remote.handleSave s) = Remote.log s
       ∧ Remote.world (exec Remote.handleSave s) = Remote.world s)
      ∧ (∀ content r,
            Remote.EInsertMessage content r ∈ Remote.log (exec Remote.handleSave s) →
            Remote.EInsertMessage content r ∈ Remote.log s
            ∨ trim content ≠ []))
  ∧ (∀ (W : Type) (E : Local.Env W) (s : Local.Sys W),
      (trim (Local.text s) = [] →
       Local.handleSave s = (tt, s)
       ∧ Local.messages (exec Local.handleSave s) = Local.messages s
       ∧ Local.storage (exec Local.handleSave s) = Local.storage s)
      ∧ (∀ m, m ∈ Local.messages (exec Local.handleSave s) →
              m ∈ Local.messages s ∨ trim (Local.m_content m) ≠ [])).
Proof.
  split; intros W E s; split.
  - intros Hblank. pose proof (remote_save_blank s Hblank) as Hrun.
    unfold exec. by rewrite Hrun.
  - intros content r Hin.
    destruct (decide (trim (Remote.text s) = [])) as [Hblank | Hne].
    + left. unfold exec in Hin. by rewrite (remote_save_blank s Hblank) in Hin.
    + destruct (Remote.messages_insert (trim (Remote.text s)) (Remote.world s))
        as [r' w] eqn:Hins.
      rewrite (remote_save_run s Hne r' w Hins) in Hin.
      assert (Remote.EInsertMessage content r
              ∈ Remote.log s ++ [Remote.EInsertMessage (trim (Remote.text s)) r'])
        as Hin' by (destruct (Remote.data r'), (Remote.error r'); exact Hin).
      apply elem_of_app in Hin' as [Hold | Hnew]; [by left |].
      apply list_elem_of_singleton in Hnew. injection Hnew as -> _.
      right. by rewrite trim_idempotent.
  - intros Hblank. pose proof (local_save_blank s Hblank) as Hrun.
    unfold exec. by rewrite Hrun.
  - intros m Hin.
    destruct (decide (trim (Local.text s) = [])) as [Hblank | Hne].
    + left. unfold exec in Hin. by rewrite (local_save_blank s Hblank) in Hin.
    + destruct (Local.randomUUID (Local.world s)) as [id w1] eqn:Hid.
      destruct (Local.now_toISOString w1) as [createdAt w2] eqn:Hnow.
      rewrite (local_save_run s Hne id w1 createdAt w2 Hid Hnow) in Hin.
      cbn in Hin. apply elem_of_cons in Hin as [-> | Hold]; [| by left].
      right. cbn [Local.m_content]. by rewrite trim_idempotent.
Qed.

Lemma C9_blank_save_is_noop_witness :
  let s := Remote.mkSys [0x20; 0x0A; 0x3000] [] [] false false (Some [])
                        (Fake.mkWorld 0 []) [] in
  let t := Local.mkSys [0x09; 0x20] [] [] false (Some []) ∅ (Fake.mkWorld 0 []) in
  (trim (Remote.text s) = [] ∧ Remote.handleSave s = (tt, s))
  ∧ (trim (Local.text t) = [] ∧ Local.handleSave t = (tt, t)).
Proof.
  intros s t. split.
  - split; [reflexivity |].
    apply (proj1 (proj1 C9_blank_save_is_noop Fake.World Fake.remote s)).
    reflexivity.
  - split; [reflexivity |].
    apply (proj1 (proj2 C9_blank_save_is_noop Fake.World Fake.browser t)).
    reflexivity.
Defined.

(** C10. In both variants the message operations ([save], [deleteMessage],
    [deleteAllMessages]) leave the file list as it was, and the file
    operations ([uploadFiles], [deleteFile], [deleteAllFiles]) leave the
    message list as it was, whatever the outside world answers; in the local
    variant the same holds of what is persisted under the other key. *)
Theorem C10_cross_list_frame :
  (∀ (W : Type) (E : Remote.Env W) (s : Remote.Sys W),
      Remote.files (exec Remote.handleSave s) = Remote.files s
      ∧ (∀ id, Remote.files (exec (Remote.handleDeleteMessage id) s)
               = Remote.files s)
      ∧ Remote.files (exec Remote.handleDeleteAllMessages s) = Remote.files s
      ∧ (∀ fs, Remote.messages (exec (Remote.handleFileUpload fs) s)
               = Remote.messages s)
      ∧ (∀ file, Remote.messages (exec (Remote.handleDeleteFile file) s)
                 = Remote.messages s)
      ∧ Remote.messages (exec Remote.handleDeleteAllFiles s)
        = Remote.messages s)
  ∧ (∀ (W : Type) (E : Local.Env W) (s : Local.Sys W),
      let same_files (s' : Local.Sys W) :=
        Local.files s' = Local.files s
        ∧ Local.storage s' !! Local.FILES_KEY
          = Local.storage s !! Local.FILES_KEY in
      let same_messages (s' : Local.Sys W) :=
        Local.messages s' = Local.messages s
        ∧ Local.storage s' !! Local.MESSAGES_KEY
          = Local.storage s !! Local.MESSAGES_KEY in
      same_files (exec Local.handleSave s)
      ∧ (∀ id, same_files (exec (Local.handleDeleteMessage id) s))
      ∧ same_files (exec Local.handleDeleteAllMessages s)
      ∧ (∀ fs, same_messages (exec (Local.handleFileUpload fs) s))
      ∧ (∀ id, same_messages (exec (Local.handleDeleteFile id) s))
      ∧ same_messages (exec Local.handleDeleteAllFiles s)).
Proof.
  split; intros W E s.
  - split; [apply remote_save_files |].
    split; [intros id; apply remote_delete_message_files |].
    split; [apply remote_delete_all_messages_files |].
    split; [intros fs; apply remote_upload_messages |].
    split; [intros file; apply remote_delete_file_messages |].
    apply remote_delete_all_files_messages.
  - intros same_files same_messages.
    split; [apply local_save_files |].
    split; [intros id; apply local_delete_message_files |].
    split; [apply local_delete_all_messages_files |].
    split; [intros fs; apply local_upload_messages |].
    split; [intros id; apply local_delete_file_messages |].
    apply local_delete_all_files_messages.
Qed.

(** * Further properties of the handlers *)

(** ** Strings, continued *)

(** [s.split(sep).pop()] is what follows the last separator. *)
Lemma split_pop_spec (sep : N) (s : jsstring) :
  ∃ key, pop (split sep s) = Some key
         ∧ (sep ∉ key) ∧ (s = key ∨ ∃ p, s = p ++ sep :: key).
Proof.
  destruct (split_spec sep s) as (segs & t & Hsplit & Hno & Hjoin).
  exists t. unfold pop. rewrite Hsplit, last_snoc. split; [done |].
  split.
  - apply Forall_app in Hno as [_ Hno]. by apply Forall_inv in Hno.
  - destruct segs as [| g segs _] using rev_ind; [by left |].
    right. exists (concat ((λ g, g ++ [sep]) <$> segs) ++ g).
    rewrite Hjoin, fmap_app, concat_app. cbn.
    by rewrite app_nil_r, <- !app_assoc.
Qed.

Lemma pop_split_extension (name ext : jsstring) :
  pop (split 46 name) = Some ext → extension_of name ext.
Proof.
  intros Hpop. destruct (split_pop_spec 46 name) as (key & Hkey & Hno & Hcut).
  rewrite Hpop in Hkey. injection Hkey as <-. by split.
Qed.

Lemma trimStart_cut (s : jsstring) :
  ∃ pre, s = pre ++ trimStart s ∧ blank pre.
Proof.
  induction s as [| c s (pre & IH & Hpre)].
  - exists []. split; [done | constructor].
  - cbn. destruct (isTrimmed c) eqn:Hc.
    + exists (c :: pre). split; [by rewrite IH at 1 | by constructor].
    + exists []. split; [done | constructor].
Qed.

Lemma blank_reverse (s : jsstring) : blank s → blank (reverse s).
Proof. unfold blank. intros Hs. by apply Forall_reverse. Qed.

Lemma trimEnd_cut (s : jsstring) :
  ∃ post, s = trimEnd s ++ post ∧ blank post.
Proof.
  destruct (trimStart_cut (reverse s)) as (pre & Hcut & Hpre).
  exists (reverse pre). split; [| by apply blank_reverse].
  unfold trimEnd. rewrite <- reverse_app, <- Hcut. by rewrite reverse_involutive.
Qed.

(** [trim] removes blank characters at both ends, and nothing else. *)
Lemma trim_trimmed_of (s : jsstring) : trimmed_of s (trim s).
Proof.
  split; [| split].
  - destruct (trimStart_cut s) as (pre & Hs & Hpre).
    destruct (trimEnd_cut (trimStart s)) as (post & Ht & Hpost).
    exists pre, post. split; [| done]. unfold trim.
    by rewrite <- Ht.
  - intros x Hx.
    pose proof (trimStart_trimEnd_trimStart s) as Hfix. fold (trim s) in Hfix.
    destruct (trimStart_shape (trim s)) as [Hnil | (c & u & Hcu & Hc)];
      rewrite Hfix in *.
    + by rewrite Hnil in Hx.
    + rewrite Hcu in Hx. by injection Hx as <-.
  - intros x Hx. unfold trim, trimEnd in Hx. rewrite last_reverse in Hx.
    destruct (trimStart_shape (reverse (trimStart s)))
      as [Hnil | (c & u & Hcu & Hc)].
    + by rewrite Hnil in Hx.
    + rewrite Hcu in Hx. by injection Hx as <-.
Qed.

(** ** Save *)

(** X1. What a save sends to the store (remote variant) or lists (local
    variant), for a text that is not blank, is the text without the blank
    characters around it: the text is blank characters, the content, blank
    characters, and the content neither starts nor ends with one. *)
Theorem X1_saved_content_is_text_without_surrounding_blanks :
  (∀ (W : Type) (E : Remote.Env W) (s : Remote.Sys W),
      trim (Remote.text s) ≠ [] →
      ∃ content r,
        Remote.log (exec Remote.handleSave s)
        = Remote.log s ++ [Remote.EInsertMessage content r]
        ∧ trimmed_of (Remote.text s) content ∧ content ≠ [])
  ∧ (∀ (W : Type) (E : Local.Env W) (s : Local.Sys W),
      trim (Local.text s) ≠ [] →
      ∃ m, Local.messages (exec Local.handleSave s) = m :: Local.messages s
           ∧ trimmed_of (Local.text s) (Local.m_content m)
           ∧ Local.m_content m ≠ []).
Proof.
  split; intros W E s Hne.
  - destruct (Remote.messages_insert (trim (Remote.text s)) (Remote.world s))
      as [r w] eqn:Hins.
    exists (trim (Remote.text s)), r.
    rewrite (remote_save_run s Hne r w Hins).
    split; [by destruct (Remote.data r), (Remote.error r) |].
    split; [apply trim_trimmed_of | done].
  - destruct (Local.randomUUID (Local.world s)) as [id w1] eqn:Hid.
    destruct (Local.now_toISOString w1) as [createdAt w2] eqn:Hnow.
    rewrite (local_save_run s Hne id w1 createdAt w2 Hid Hnow).
    eexists. split; [reflexivity |]. cbn.
    split; [apply trim_trimmed_of | done].
Qed.

Lemma X1_saved_content_is_text_without_surrounding_blanks_witness :
  let t := Local.mkSys [0x0A; 0x20; 0x61; 0x20; 0x62; 0x3000] [] [] false
                       (Some []) ∅ (Fake.mkWorld 0 []) in
  trim (Local.text t) ≠ []
  ∧ ∃ m, Local.messages (exec Local.handleSave t) = [m]
         ∧ trimmed_of (Local.text t) (Local.m_content m)
         ∧ Local.m_content m = js "a b".
Proof.
  intros t. split; [discriminate |].
  destruct (proj2 X1_saved_content_is_text_without_surrounding_blanks
              Fake.World Fake.browser t) as (m & Hm & Hshape & _);
    [discriminate |].
  exists m. split; [exact Hm |]. split; [exact Hshape |].
  change (Local.messages (exec Local.handleSave t))
    with [Local.mkMessage (js "uuid0") (js "a b")
            (js "2024-01-01T00:00:00.001Z")] in Hm.
  by injection Hm as <-.
Defined.

(** X2. Saving and then deleting the message just created, when both calls
    succeed and no listed message had the new id, gives back the message
    list there was before the save. *)
Theorem X2_save_then_delete_restores_list :
  (∀ (W : Type) (E : Remote.Env W) (s : Remote.Sys W) r w d w',
      trim (Remote.text s) ≠ [] →
      Remote.messages_insert (trim (Remote.text s)) (Remote.world s) = (r, w) →
      Remote.data r = Some d → Remote.error r = None →
      (∀ m, m ∈ Remote.messages s → Remote.m_id m ≠ Remote.m_id d) →
      Remote.messages_delete_eq (Remote.m_id d) w = (None, w') →
      Remote.messages
        (exec (Remote.handleDeleteMessage (Remote.m_id d))
              (exec Remote.handleSave s))
      = Remote.messages s)
  ∧ (∀ (W : Type) (E : Local.Env W) (s : Local.Sys W) id w1,
      trim (Local.text s) ≠ [] →
      Local.randomUUID (Local.world s) = (id, w1) →
      (∀ m, m ∈ Local.messages s → Local.m_id m ≠ id) →
      let s2 := exec (Local.handleDeleteMessage id) (exec Local.handleSave s) in
      Local.messages s2 = Local.messages s
      ∧ Local.storage s2 !! Local.MESSAGES_KEY
        = Some (Local.StoredMessages (Local.messages s))).
Proof.
  split.
  - intros W E s r w d w' Hne Hins Hdata Herr Hfresh Hdel.
    rewrite (remote_save_run s Hne r w Hins), Hdata, Herr.
    erewrite remote_delete_message_run by exact Hdel. cbn.
    rewrite decide_False by (intros Hn; by apply Hn).
    by apply filter_keeps_all.
  - intros W E s id w1 Hne Hid Hfresh s2. subst s2.
    destruct (Local.now_toISOString w1) as [createdAt w2] eqn:Hnow.
    rewrite (local_save_run s Hne id w1 createdAt w2 Hid Hnow). cbn.
    rewrite lookup_insert_eq.
    rewrite decide_False by (intros Hn; by apply Hn).
    split; [| do 2 f_equal]; by apply (filter_keeps_all Local.m_id id).
Qed.

Lemma X2_save_then_delete_restores_list_witness :
  let old := Local.mkMessage (js "m1") (js "old") (js "2023-12-31T00:00:00.000Z") in
  let t := Local.mkSys (js "new") [old] [] false (Some []) ∅ (Fake.mkWorld 0 []) in
  Local.messages (exec Local.handleSave t)
  = [Local.mkMessage (js "uuid0") (js "new") (js "2024-01-01T00:00:00.001Z"); old]
  ∧ Local.messages (exec (Local.handleDeleteMessage (js "uuid0"))
                         (exec Local.handleSave t)) = [old].
Proof.
  intros old t. split; [reflexivity |].
  apply (proj2 X2_save_then_delete_restores_list Fake.World Fake.browser t
           (js "uuid0") (Fake.mkWorld 1 []));
    [discriminate | reflexivity |].
  intros m Hm. apply list_elem_of_singleton in Hm as ->. discriminate.
Defined.

(** ** Delete all *)

Section RemoteDeleteAll.
Context {W : Type} `{!Remote.Env W}.
Import Remote.
Local Arguments filter_Boolean : simpl never.

Lemma remote_delete_all_messages_run (s : Sys W) (ok : bool) (w1 : W) :
  confirm ConfirmDeleteAllMessages (world s) = (ok, w1) →
  exec handleDeleteAllMessages s =
    if ok
    then let ids := m_id <$> messages s in
         let '(err, w2) := messages_delete_in ids w1 in
         mkSys (text s)
               (match err with None => [] | Some _ => messages s end)
               (files s) false (isSyncing s) (fileInput s) w2
               (log s ++ [EConfirm ConfirmDeleteAllMessages true;
                          EDeleteMessages ids err])
    else mkSys (text s) (messages s) (files s) (isLoading s) (isSyncing s)
               (fileInput s) w1
               (log s ++ [EConfirm ConfirmDeleteAllMessages false]).
Proof.
  intros Hok.
  unfold handleDeleteAllMessages, setIsLoading, setMessages, call. run_prog.
  rewrite Hok. destruct ok; cbn; [| done].
  destruct (messages_delete_in (m_id <$> messages s) w1) as [[e |] w2]; cbn;
    by rewrite <- app_assoc.
Qed.

Lemma remote_delete_all_files_run (s : Sys W) (ok : bool) (w1 : W) :
  confirm ConfirmDeleteAllFiles (world s) = (ok, w1) →
  exec handleDeleteAllFiles s =
    if ok
    then let keys := blob_keys (files s) in
         let '(removal, w2) :=
           match keys with
           | [] => ([], w1)
           | _ :: _ => let '(e, w) := storage_remove keys w1 in
                       ([ERemoveBlobs keys e], w)
           end in
         let ids := f_id <$> files s in
         let '(err, w3) := files_delete_in ids w2 in
         mkSys (text s) (messages s)
               (match err with None => [] | Some _ => files s end)
               false (isSyncing s) (fileInput s) w3
               (log s ++ [EConfirm ConfirmDeleteAllFiles true] ++ removal
                      ++ [EDeleteFiles ids err])
    else mkSys (text s) (messages s) (files s) (isLoading s) (isSyncing s)
               (fileInput s) w1
               (log s ++ [EConfirm ConfirmDeleteAllFiles false]).
Proof.
  intros Hok.
  unfold handleDeleteAllFiles, setIsLoading, setFiles, call. run_prog.
  rewrite Hok. destruct ok; cbn; [| done].
  change (filter_Boolean _) with (blob_keys (files s)).
  destruct (blob_keys (files s)) as [| k keys].
  - rewrite decide_False by (cbn; lia). cbn.
    destruct (files_delete_in (f_id <$> files s) w1) as [[e |] w3]; cbn;
      by rewrite <- app_assoc.
  - rewrite decide_True by (cbn; lia). cbn.
    destruct (storage_remove (k :: keys) w1) as [e w2]. cbn.
    destruct (files_delete_in (f_id <$> files s) w2) as [[e' |] w3]; cbn;
      by rewrite <- !app_assoc.
Qed.
End RemoteDeleteAll.

(** The keys [deleteAllFiles] removes are the tail segments of the listed
    URLs that are not empty. *)
Lemma elem_of_blob_keys (fs : list Remote.FileItem) (k : jsstring) :
  k ∈ blob_keys fs
  ↔ k ≠ [] ∧ ∃ f, f ∈ fs ∧ tail_segment (Remote.f_url f) k.
Proof.
  unfold blob_keys, filter_Boolean. rewrite list_elem_of_bind. split.
  - intros (o & Hk & Ho). apply list_elem_of_fmap in Ho as (f & -> & Hf).
    destruct (pop (split 47 (Remote.f_url f))) as [t |] eqn:Hpop;
      [| by apply not_elem_of_nil in Hk].
    destruct (truthy t) eqn:Ht; [| by apply not_elem_of_nil in Hk].
    apply list_elem_of_singleton in Hk as ->.
    split; [by apply truthy_true |]. exists f. split; [done |].
    by apply tail_segment_pop.
  - intros (Hne & f & Hf & Htail). apply tail_segment_pop in Htail.
    exists (Some k). split.
    + apply truthy_true in Hne. rewrite Hne. left.
    + apply list_elem_of_fmap. by exists f.
Qed.

(** X3. Remote variant, [deleteAllMessages].  When the confirmation is
    declined nothing is asked of the store and the message list stays.  When
    it is given, one batch delete is issued, for the ids of all listed
    messages in their order; the list is emptied when the delete answers
    without an error and stays as it was when it answers with one. *)
Theorem X3_remote_delete_all_messages :
  ∀ (W : Type) (E : Remote.Env W) (s : Remote.Sys W) (ok : bool) (w1 : W),
    Remote.confirm ConfirmDeleteAllMessages (Remote.world s) = (ok, w1) →
    let s' := exec Remote.handleDeleteAllMessages s in
    (ok = false →
     Remote.messages s' = Remote.messages s
     ∧ Remote.log s'
       = Remote.log s ++ [Remote.EConfirm ConfirmDeleteAllMessages false])
    ∧ (ok = true →
       ∃ err,
         Remote.log s'
         = Remote.log s
           ++ [Remote.EConfirm ConfirmDeleteAllMessages true;
               Remote.EDeleteMessages (Remote.m_id <$> Remote.messages s) err]
         ∧ (err = None → Remote.messages s' = [])
         ∧ (err ≠ None → Remote.messages s' = Remote.messages s)).
Proof.
  intros W E s ok w1 Hok s'. subst s'.
  rewrite (remote_delete_all_messages_run s ok w1 Hok).
  split; intros ->; [done |]. cbn.
  destruct (Remote.messages_delete_in _ w1) as [err w2].
  exists err. split; [done |]. split; [by intros -> | by destruct err].
Qed.

Lemma X3_remote_delete_all_messages_witness :
  let a := Remote.mkMessage (js "a") (js "one") (js "t2") in
  let b := Remote.mkMessage (js "b") (js "two") (js "t1") in
  let yes := Remote.mkSys [] [a; b] [] false false (Some []) (Fake.mkWorld 0 []) [] in
  let no := Remote.mkSys [] [a; b] [] false false (Some []) (Fake.mkWorld 0 [0%nat]) [] in
  Remote.messages (exec Remote.handleDeleteAllMessages yes) = []
  ∧ Remote.messages (exec Remote.handleDeleteAllMessages no) = [a; b]
  ∧ Remote.log (exec Remote.handleDeleteAllMessages no)
    = [Remote.EConfirm ConfirmDeleteAllMessages false].
Proof.
  intros a b yes no. split; [| split].
  - destruct (proj2 (X3_remote_delete_all_messages Fake.World Fake.remote yes
                       true (Fake.mkWorld 1 []) eq_refl) eq_refl)
      as (err & Hlog & Hnone & _).
    apply Hnone.
    change (Remote.log (exec Remote.handleDeleteAllMessages yes))
      with ([] ++ [Remote.EConfirm ConfirmDeleteAllMessages true;
                   Remote.EDeleteMessages [js "a"; js "b"] None]) in Hlog.
    apply app_inv_head in Hlog. by injection Hlog as <-.
  - apply (proj1 (X3_remote_delete_all_messages Fake.World Fake.remote no
                    false (Fake.mkWorld 1 [0%nat]) eq_refl) eq_refl).
  - apply (proj1 (X3_remote_delete_all_messages Fake.World Fake.remote no
                    false (Fake.mkWorld 1 [0%nat]) eq_refl) eq_refl).
Defined.

(** X4. Remote variant, [deleteAllFiles].  When the confirmation is declined
    nothing is asked of the store and the file list stays.  When it is
    given: the blobs are removed in one call, issued only when some listed
    URL has a tail segment that is not empty, for exactly those segments;
    whatever that call answers, one batch delete of the rows of all listed
    ids follows; the list is emptied when that delete answers without an
    error and stays as it was when it answers with one. *)
Theorem X4_remote_delete_all_files :
  ∀ (W : Type) (E : Remote.Env W) (s : Remote.Sys W) (ok : bool) (w1 : W),
    Remote.confirm ConfirmDeleteAllFiles (Remote.world s) = (ok, w1) →
    let s' := exec Remote.handleDeleteAllFiles s in
    let keys := blob_keys (Remote.files s) in
    (∀ k, k ∈ keys
          ↔ k ≠ [] ∧ ∃ f, f ∈ Remote.files s ∧ tail_segment (Remote.f_url f) k)
    ∧ (ok = false →
       Remote.files s' = Remote.files s
       ∧ Remote.log s'
         = Remote.log s ++ [Remote.EConfirm ConfirmDeleteAllFiles false])
    ∧ (ok = true →
       ∃ removal err,
         Remote.log s'
         = Remote.log s ++ [Remote.EConfirm ConfirmDeleteAllFiles true]
           ++ removal
           ++ [Remote.EDeleteFiles (Remote.f_id <$> Remote.files s) err]
         ∧ (keys = [] → removal = [])
         ∧ (keys ≠ [] → ∃ e, removal = [Remote.ERemoveBlobs keys e])
         ∧ (err = None → Remote.files s' = [])
         ∧ (err ≠ None → Remote.files s' = Remote.files s)).
Proof.
  intros W E s ok w1 Hok s' keys. subst s' keys.
  split; [intros k; apply elem_of_blob_keys |].
  rewrite (remote_delete_all_files_run s ok w1 Hok).
  split; intros ->; [done |]. cbn.
  destruct (blob_keys (Remote.files s)) as [| k keys].
  - destruct (Remote.files_delete_in _ w1) as [err w3].
    exists [], err. split; [done |]. split; [done |]. split; [done |].
    split; [by intros -> | by destruct err].
  - destruct (Remote.storage_remove (k :: keys) w1) as [e w2].
    destruct (Remote.files_delete_in _ w2) as [err w3].
    exists [Remote.ERemoveBlobs (k :: keys) e], err.
    split; [done |]. split; [done |]. split; [by exists e |].
    split; [by intros -> | by destruct err].
Qed.

Lemma X4_remote_delete_all_files_witness :
  let f := Remote.mkFileItem (js "f1") (js "a.txt") 3 (js "text/plain")
             (js "https://kho.example/files/k1.txt") (js "t1") in
  let g := Remote.mkFileItem (js "f2") (js "b") 9 (js "image/png")
             (js "https://kho.example/files/") (js "t0") in
  let s := Remote.mkSys [] [] [f; g] false false (Some [])
                        (Fake.mkWorld 0 [1%nat]) [] in
  let s' := exec Remote.handleDeleteAllFiles s in
  blob_keys (Remote.files s) = [js "k1.txt"]
  ∧ Remote.log s'
    = [Remote.EConfirm ConfirmDeleteAllFiles true;
       Remote.ERemoveBlobs [js "k1.txt"] Fake.failure;
       Remote.EDeleteFiles [js "f1"; js "f2"] None]
  ∧ Remote.files s' = [].
Proof.
  intros f g s s'. split; [reflexivity |]. split; [reflexivity |].
  destruct (X4_remote_delete_all_files Fake.World Fake.remote s true
              (Fake.mkWorld 1 [1%nat]) eq_refl) as (_ & _ & Hyes).
  destruct (Hyes eq_refl) as (removal & err & Hlog & _ & _ & Hnone & _).
  apply Hnone.
  change (Remote.log (exec Remote.handleDeleteAllFiles s))
    with ([] ++ [Remote.EConfirm ConfirmDeleteAllFiles true]
             ++ [Remote.ERemoveBlobs [js "k1.txt"] Fake.failure]
             ++ [Remote.EDeleteFiles [js "f1"; js "f2"] None]) in Hlog.
  apply app_inv_head in Hlog. injection Hlog as Hlog.
  apply (f_equal (@last _)) in Hlog. rewrite !last_snoc in Hlog.
  by injection Hlog as <-.
Defined.

(** X5. Local variant, [deleteAllMessages] and [deleteAllFiles].  When the
    confirmation is given the list is emptied and the empty list is what the
    store holds under its key; when it is declined the list and the store
    are what they were.  The other list is never touched. *)
Theorem X5_local_delete_all :
  ∀ (W : Type) (E : Local.Env W) (s : Local.Sys W),
    (∀ ok w, Local.confirm ConfirmDeleteAllMessages (Local.world s) = (ok, w) →
       let s' := exec Local.handleDeleteAllMessages s in
       (ok = true →
        Local.messages s' = []
        ∧ Local.storage s' !! Local.MESSAGES_KEY = Some (Local.StoredMessages []))
       ∧ (ok = false →
          Local.messages s' = Local.messages s
          ∧ Local.storage s' = Local.storage s))
    ∧ (∀ ok w, Local.confirm ConfirmDeleteAllFiles (Local.world s) = (ok, w) →
       let s' := exec Local.handleDeleteAllFiles s in
       (ok = true →
        Local.files s' = []
        ∧ Local.storage s' !! Local.FILES_KEY = Some (Local.StoredFiles []))
       ∧ (ok = false →
          Local.files s' = Local.files s
          ∧ Local.storage s' = Local.storage s)).
Proof.
  intros W E s. split; intros ok w Hok s'; subst s'.
  - unfold Local.handleDeleteAllMessages, Local.setMessages, Local.call.
    run_prog. rewrite Hok.
    split; intros ->; cbn; [by rewrite lookup_insert_eq | done].
  - unfold Local.handleDeleteAllFiles, Local.setFiles, Local.call.
    run_prog. rewrite Hok.
    split; intros ->; cbn; [by rewrite lookup_insert_eq | done].
Qed.

Lemma X5_local_delete_all_witness :
  let m := Local.mkMessage (js "m1") (js "old") (js "t") in
  let st : gmap jsstring Local.Stored :=
    {[ Local.MESSAGES_KEY := Local.StoredMessages [m] ]} in
  let yes := Local.mount st (Fake.mkWorld 0 []) in
  let no := Local.mount st (Fake.mkWorld 0 [0%nat]) in
  Local.messages yes = [m]
  ∧ Local.messages (exec Local.handleDeleteAllMessages yes) = []
  ∧ Local.messages (exec Local.handleDeleteAllMessages no) = [m].
Proof.
  intros m st yes no. split; [reflexivity |]. split.
  - apply (proj1 (proj1 (X5_local_delete_all Fake.World Fake.browser yes)
                    true (Fake.mkWorld 1 []) eq_refl) eq_refl).
  - apply (proj2 (proj1 (X5_local_delete_all Fake.World Fake.browser no)
                    false (Fake.mkWorld 1 [0%nat]) eq_refl) eq_refl).
Defined.

(** ** Load *)

(** X6. Remote variant, [loadData].  Both lists are always asked for,
    messages first.  Each list is replaced by the rows its query answered
    with; a query that answers without rows leaves its list as it was and
    does not keep the other from being replaced.  The syncing flag is down
    at the end. *)
Theorem X6_remote_load_data :
  ∀ (W : Type) (E : Remote.Env W) (s : Remote.Sys W) rm w1 rf w2,
    Remote.messages_select (Remote.world s) = (rm, w1) →
    Remote.files_select w1 = (rf, w2) →
    let s' := exec Remote.loadData s in
    Remote.log s'
    = Remote.log s ++ [Remote.ESelectMessages rm; Remote.ESelectFiles rf]
    ∧ Remote.messages s' = default (Remote.messages s) (Remote.data rm)
    ∧ Remote.files s' = default (Remote.files s) (Remote.data rf)
    ∧ Remote.isSyncing s' = false
    ∧ Remote.text s' = Remote.text s.
Proof.
  intros W E s rm w1 rf w2 Hm Hf s'. subst s'.
  unfold Remote.loadData, Remote.setIsSyncing, Remote.setMessages,
    Remote.setFiles, Remote.call.
  run_prog. rewrite Hm. cbn. rewrite Hf. cbn.
  destruct (Remote.data rm), (Remote.data rf); cbn; by rewrite <- app_assoc.
Qed.

Lemma X6_remote_load_data_witness :
  let old := Remote.mkMessage (js "m1") (js "old") (js "t") in
  let s := Remote.mkSys [] [old] [] false true (Some [])
                        (Fake.mkWorld 0 [0%nat]) [] in
  let s' := exec Remote.loadData s in
  Remote.messages s' = [old] ∧ Remote.files s' = []
  ∧ Remote.isSyncing s' = false.
Proof.
  intros old s s'.
  destruct (X6_remote_load_data Fake.World Fake.remote s
              (Remote.mkResponse None Fake.failure) (Fake.mkWorld 1 [0%nat])
              (Remote.mkResponse (Some []) None) (Fake.mkWorld 2 [0%nat])
              eq_refl eq_refl) as (_ & Hm & Hf & Hsync & _).
  split; [exact Hm | split; [exact Hf | exact Hsync]].
Defined.

(** ** Upload *)

Section RemoteUploadRounds.
Context {W : Type} `{!Remote.Env W}.
Import Remote.

Lemma uploadOne_round (file : File) (s : Sys W) :
  ∃ round, log (exec (uploadOne file) s) = log s ++ round
           ∧ ∀ fs evs, upload_rounds fs evs →
                       upload_rounds (file :: fs) (round ++ evs).
Proof.
  destruct (split_pop_spec 46 (file_name file)) as (ext & Hext & _).
  unfold uploadOne, setFiles, console_error, call. run_prog.
  rewrite Hext. cbn [template].
  destruct (randomUUID (world s)) as [uuid w1]. cbn.
  destruct (storage_upload (uuid ++ js "." ++ ext) file w1) as [[e |] w2]; cbn.
  - eexists [_; _; _]. rewrite <- !app_assoc. split; [reflexivity |].
    intros fs evs Hrounds. by apply rounds_failed.
  - destruct (storage_getPublicUrl (uuid ++ js "." ++ ext) w2)
      as [publicUrl w3]. cbn.
    destruct (files_insert _ w3) as [r w4]. cbn.
    eexists [_; _; _; _]. split.
    + destruct r as [[d |] [e |]]; cbn; rewrite <- !app_assoc; reflexivity.
    + intros fs evs Hrounds. by apply rounds_uploaded.
Qed.

Lemma upload_loop_rounds (fs : list File) (s : Sys W) :
  ∃ evs, log (exec (for_of fs uploadOne) s) = log s ++ evs
         ∧ upload_rounds fs evs.
Proof.
  revert s. induction fs as [| file fs IH]; intros s.
  - exists []. cbn. rewrite app_nil_r. split; [done | constructor].
  - cbn [for_of]. rewrite exec_bind.
    destruct (uploadOne_round file s) as (round & Hlog1 & Hround).
    destruct (IH (exec (uploadOne file) s)) as (evs & Hlog2 & Hrounds).
    exists (round ++ evs). rewrite Hlog2, Hlog1, <- app_assoc.
    split; [done | by apply Hround].
Qed.

Lemma remote_upload_rounds (fs : list File) (s : Sys W) :
  ∃ evs, log (exec (handleFileUpload (Some fs)) s) = log s ++ evs
         ∧ upload_rounds fs evs.
Proof.
  unfold handleFileUpload. rewrite !exec_bind.
  destruct (upload_loop_rounds fs (exec (setIsLoading true) s))
    as (evs & Hlog & Hrounds).
  exists evs. split; [exact Hlog | done].
Qed.
End RemoteUploadRounds.

Lemma upload_rounds_counts (fs : list File) (evs : list Remote.Event) :
  upload_rounds fs evs →
  Log.uploads evs = fs
  ∧ Log.count Log.is_insert_file evs = Log.count is_ok_upload evs
  ∧ Log.count is_console_error evs = Log.count Log.is_failed_upload evs
  ∧ (Log.count is_ok_upload evs + Log.count Log.is_failed_upload evs
     = length fs)%nat.
Proof.
  induction 1 as [| uuid ext file e fs evs Hext Hrounds (IH1 & IH2 & IH3 & IH4)
                  | uuid ext file url r fs evs Hext Hrounds
                      (IH1 & IH2 & IH3 & IH4)]; [done | |].
  - change (_ :: _ :: _ :: evs)
      with ([Remote.ERandomUUID uuid;
             Remote.EUpload (uuid ++ js "." ++ ext) file (Some e);
             Remote.EConsoleError e] ++ evs).
    unfold Log.uploads in *. rewrite omap_app, !count_app, IH1. cbn.
    repeat split; lia.
  - change (_ :: _ :: _ :: _ :: evs)
      with ([Remote.ERandomUUID uuid;
             Remote.EUpload (uuid ++ js "." ++ ext) file None;
             Remote.EGetPublicUrl (uuid ++ js "." ++ ext) url;
             Remote.EInsertFile
               (Remote.mkFileRow (file_name file) (file_size file)
                                 (file_type file) url) r] ++ evs).
    unfold Log.uploads in *. rewrite omap_app, !count_app, IH1. cbn.
    repeat split; lia.
Qed.

Lemma upload_rounds_keys (fs : list File) (evs : list Remote.Event) :
  upload_rounds fs evs →
  ∀ key file err, Remote.EUpload key file err ∈ evs →
    file ∈ fs
    ∧ ∃ uuid ext, Remote.ERandomUUID uuid ∈ evs
                  ∧ key = uuid ++ js "." ++ ext
                  ∧ extension_of (file_name file) ext.
Proof.
  induction 1 as [| uuid ext file e fs evs Hext Hrounds IH
                  | uuid ext file url r fs evs Hext Hrounds IH];
    intros key f err Hin.
  - by apply not_elem_of_nil in Hin.
  - rewrite !elem_of_cons in Hin.
    destruct Hin as [Hin | [Hin | [Hin | Hin]]]; try discriminate.
    + injection Hin as -> -> _. split; [left |].
      exists uuid, ext. split; [left |]. split; [done |].
      by apply pop_split_extension.
    + destruct (IH _ _ _ Hin) as (Hf & u & x & Hu & Hk & Hx).
      split; [by right |]. exists u, x. split; [| done]. by do 3 right.
  - rewrite !elem_of_cons in Hin.
    destruct Hin as [Hin | [Hin | [Hin | [Hin | Hin]]]]; try discriminate.
    + injection Hin as -> -> _. split; [left |].
      exists uuid, ext. split; [left |]. split; [done |].
      by apply pop_split_extension.
    + destruct (IH _ _ _ Hin) as (Hf & u & x & Hu & Hk & Hx).
      split; [by right |]. exists u, x. split; [| done]. by do 4 right.
Qed.

Lemma upload_rounds_rows (fs : list File) (evs : list Remote.Event) :
  upload_rounds fs evs →
  ∀ row r, Remote.EInsertFile row r ∈ evs →
    ∃ file key,
      file ∈ fs
      ∧ Remote.EUpload key file None ∈ evs
      ∧ Remote.EGetPublicUrl key (Remote.r_url row) ∈ evs
      ∧ row = Remote.mkFileRow (file_name file) (file_size file)
                               (file_type file) (Remote.r_url row).
Proof.
  induction 1 as [| uuid ext file e fs evs Hext Hrounds IH
                  | uuid ext file url r fs evs Hext Hrounds IH];
    intros row a Hin.
  - by apply not_elem_of_nil in Hin.
  - rewrite !elem_of_cons in Hin.
    destruct Hin as [Hin | [Hin | [Hin | Hin]]]; try discriminate.
    destruct (IH _ _ Hin) as (f & k & Hf & Hup & Hurl & Hrow).
    exists f, k. split; [by right |].
    split; [by do 3 right |]. split; [by do 3 right | done].
  - rewrite !elem_of_cons in Hin.
    destruct Hin as [Hin | [Hin | [Hin | [Hin | Hin]]]]; try discriminate.
    + injection Hin as -> _. exists file, (uuid ++ js "." ++ ext).
      split; [left |]. split; [right; left |]. split; [| done].
      right. right. left.
    + destruct (IH _ _ Hin) as (f & k & Hf & Hup & Hurl & Hrow).
      exists f, k. split; [by right |].
      split; [by do 4 right |]. split; [by do 4 right | done].
Qed.

(** X7. Remote variant, [uploadFiles].  The upload of every file of the
    batch is attempted once, in the order of the batch; a row is inserted
    once for each upload that succeeded and never for one that failed; each
    failed upload is reported on the console. *)
Theorem X7_remote_upload_one_insert_per_uploaded_file :
  ∀ (W : Type) (E : Remote.Env W) (s : Remote.Sys W) (fs : list File)
    (evs : list Remote.Event),
    Remote.log (exec (Remote.handleFileUpload (Some fs)) s)
    = Remote.log s ++ evs →
    Log.uploads evs = fs
    ∧ Log.count Log.is_insert_file evs = Log.count is_ok_upload evs
    ∧ Log.count is_console_error evs = Log.count Log.is_failed_upload evs
    ∧ (Log.count is_ok_upload evs + Log.count Log.is_failed_upload evs
       = length fs)%nat.
Proof.
  intros W E s fs evs Hlog.
  destruct (remote_upload_rounds fs s) as (evs' & Hlog' & Hrounds).
  rewrite Hlog' in Hlog. apply app_inv_head in Hlog as ->.
  by apply upload_rounds_counts.
Qed.

Lemma X7_remote_upload_one_insert_per_uploaded_file_witness :
  let s := Fake.remote0 [1%nat; 7%nat] in
  let fs := [Fake.a_txt; Fake.b_png; Fake.c_pdf] in
  let evs := Remote.log (exec (Remote.handleFileUpload (Some fs)) s) in
  Log.uploads evs = fs
  ∧ Log.count Log.is_insert_file evs = 2%nat
  ∧ Log.count Log.is_failed_upload evs = 1%nat
  ∧ Log.count is_console_error evs = 1%nat.
Proof.
  intros s fs evs.
  destruct (X7_remote_upload_one_insert_per_uploaded_file Fake.World
              Fake.remote s fs evs eq_refl) as (Hup & Hins & Herr & _).
  split; [exact Hup |]. split; [rewrite Hins; reflexivity |].
  split; [reflexivity |]. rewrite Herr. reflexivity.
Defined.

(** X8. Remote variant, [uploadFiles].  Every upload goes under a key made
    of an identifier drawn for it, a ['.'] and the extension of the name of
    its file: what follows the last ['.'] of the name, the whole name when
    it has none. *)
Theorem X8_remote_upload_key_keeps_extension :
  ∀ (W : Type) (E : Remote.Env W) (s : Remote.Sys W) (fs : list File)
    (evs : list Remote.Event) key file err,
    Remote.log (exec (Remote.handleFileUpload (Some fs)) s)
    = Remote.log s ++ evs →
    Remote.EUpload key file err ∈ evs →
    file ∈ fs
    ∧ ∃ uuid ext, Remote.ERandomUUID uuid ∈ evs
                  ∧ key = uuid ++ js "." ++ ext
                  ∧ extension_of (file_name file) ext.
Proof.
  intros W E s fs evs key file err Hlog Hin.
  destruct (remote_upload_rounds fs s) as (evs' & Hlog' & Hrounds).
  rewrite Hlog' in Hlog. apply app_inv_head in Hlog as ->.
  by eapply upload_rounds_keys.
Qed.

Lemma X8_remote_upload_key_keeps_extension_witness :
  let noext := mkFile (js "README") 12 (js "") (js "aGk=") in
  let tgz := mkFile (js "v1.2.tar.gz") 40 (js "application/gzip") (js "H4sI") in
  let evs := Remote.log (exec (Remote.handleFileUpload (Some [noext; tgz]))
                              (Fake.remote0 [])) in
  Remote.EUpload (js "uuid0.README") noext None ∈ evs
  ∧ Remote.EUpload (js "uuid3.gz") tgz None ∈ evs
  ∧ ∃ uuid ext, js "uuid0.README" = uuid ++ js "." ++ ext
                ∧ extension_of (js "README") ext.
Proof.
  intros noext tgz evs.
  assert (Remote.EUpload (js "uuid0.README") noext None ∈ evs) as Hin.
  { apply list_elem_of_In. vm_compute. right. left. reflexivity. }
  split; [exact Hin |]. split.
  - apply list_elem_of_In. vm_compute. do 5 right. left. reflexivity.
  - destruct (X8_remote_upload_key_keeps_extension Fake.World Fake.remote
                (Fake.remote0 []) [noext; tgz] evs _ _ _ eq_refl Hin)
      as (_ & uuid & ext & _ & Hkey & Hext).
    by exists uuid, ext.
Defined.

(** X9. Remote variant, [uploadFiles].  Every row inserted is the row of a
    file of the batch whose upload succeeded: it has the name, size and type
    of that file and, for its URL, the public URL resolved for the key the
    file was uploaded under. *)
Theorem X9_remote_upload_row_describes_uploaded_file :
  ∀ (W : Type) (E : Remote.Env W) (s : Remote.Sys W) (fs : list File)
    (evs : list Remote.Event) row r,
    Remote.log (exec (Remote.handleFileUpload (Some fs)) s)
    = Remote.log s ++ evs →
    Remote.EInsertFile row r ∈ evs →
    ∃ file key,
      file ∈ fs
      ∧ Remote.EUpload key file None ∈ evs
      ∧ Remote.EGetPublicUrl key (Remote.r_url row) ∈ evs
      ∧ row = Remote.mkFileRow (file_name file) (file_size file)
                               (file_type file) (Remote.r_url row).
Proof.
  intros W E s fs evs row r Hlog Hin.
  destruct (remote_upload_rounds fs s) as (evs' & Hlog' & Hrounds).
  rewrite Hlog' in Hlog. apply app_inv_head in Hlog as ->.
  by eapply upload_rounds_rows.
Qed.

Lemma X9_remote_upload_row_describes_uploaded_file_witness :
  let evs := Remote.log (exec (Remote.handleFileUpload (Some [Fake.a_txt]))
                              (Fake.remote0 [])) in
  ∃ row r, Remote.EInsertFile row r ∈ evs
           ∧ Remote.r_name row = js "a.txt" ∧ Remote.r_size row = 3
           ∧ ∃ key, Remote.EGetPublicUrl key (Remote.r_url row) ∈ evs.
Proof.
  intros evs.
  assert (∃ row r, evs !! 3%nat = Some (Remote.EInsertFile row r))
    as (row & r & Hat) by (eexists _, _; reflexivity).
  assert (Remote.EInsertFile row r ∈ evs) as Hin
    by (by eapply list_elem_of_lookup_2).
  destruct (X9_remote_upload_row_describes_uploaded_file Fake.World
              Fake.remote (Fake.remote0 []) [Fake.a_txt] evs row r eq_refl Hin)
    as (file & key & Hfile & _ & Hurl & Hrow).
  apply list_elem_of_singleton in Hfile as ->.
  exists row, r. split; [exact Hin |].
  split; [by rewrite Hrow |]. split; [by rewrite Hrow |]. by exists key.
Defined.

(** X10. Remote variant, [uploadFiles].  The upload only adds in front of
    the file list, and the batch is accounted for: the entries added, the
    uploads that failed and the inserts that failed are as many as the files
    of the batch.  So the list grows by exactly the size of the batch when
    nothing fails. *)
Theorem X10_remote_upload_accounts_for_batch :
  ∀ (W : Type) (E : Remote.Env W) (s : Remote.Sys W) (fs : list File)
    (evs : list Remote.Event),
    let s' := exec (Remote.handleFileUpload (Some fs)) s in
    Remote.log s' = Remote.log s ++ evs →
    ∃ new, Remote.files s' = new ++ Remote.files s
           ∧ (length new + Log.count Log.is_failed_upload evs
              + Log.count Log.is_failed_insert_file evs = length fs)%nat
           ∧ (Log.count Log.is_failed_upload evs = 0%nat →
              Log.count Log.is_failed_insert_file evs = 0%nat →
              length (Remote.files s')
              = (length (Remote.files s) + length fs)%nat).
Proof.
  intros W E s fs evs s' Hlog. subst s'.
  destruct (remote_upload_run fs s) as (evs' & w & Hrun & Hup & Hcnt).
  rewrite Hrun in *. cbn in Hlog. apply app_inv_head in Hlog as ->.
  rewrite count_insert_file in Hcnt.
  eexists. split; [reflexivity |]. cbn.
  rewrite length_app, length_reverse. split; lia.
Qed.

Lemma X10_remote_upload_accounts_for_batch_witness :
  let s := Fake.remote0 [] in
  let fs := [Fake.a_txt; Fake.b_png; Fake.c_pdf] in
  let s' := exec (Remote.handleFileUpload (Some fs)) s in
  ∃ new, Remote.files s' = new ++ Remote.files s ∧ length new = 3%nat.
Proof.
  intros s fs s'.
  destruct (X10_remote_upload_accounts_for_batch Fake.World Fake.remote s fs
              (Remote.log s') eq_refl) as (new & Hnew & Hcount & _).
  exists new. split; [exact Hnew |].
  change (Log.count Log.is_failed_upload (Remote.log s')) with 0%nat in Hcount.
  change (Log.count Log.is_failed_insert_file (Remote.log s')) with 0%nat
    in Hcount.
  change (length fs) with 3%nat in Hcount. lia.
Defined.

(** X11. Local variant, [uploadFiles].  When every read of the batch
    resolves, the upload puts one item per file of the batch in front of the
    file list, in the order of the batch, each with the name, size and type
    of its file; the list that was there follows unchanged; the new list is
    what the store holds under the key of the files, and the busy flag is
    down.  When a read does not resolve, the upload never finishes: the list
    and the store are what they were and the busy flag stays up. *)
Theorem X11_local_upload_prepends_batch_in_order :
  ∀ (W : Type) (E : Local.Env W) (s : Local.Sys W) (fs : list File),
    let s' := exec (Local.handleFileUpload (Some fs)) s in
    (reads_resolve fs (Local.world s) →
     ∃ new, Local.files s' = new ++ Local.files s
            ∧ Forall2 describes new fs
            ∧ Local.storage s' !! Local.FILES_KEY
              = Some (Local.StoredFiles (new ++ Local.files s))
            ∧ Local.isLoading s' = false)
    ∧ (¬ reads_resolve fs (Local.world s) →
       Local.files s' = Local.files s
       ∧ Local.storage s' = Local.storage s
       ∧ Local.isLoading s' = true).
Proof.
  intros W E s fs s'. subst s'.
  destruct (local_upload_run fs s)
    as (w & [(Hres & new & -> & Hitems) | (Hnot & ->)]).
  - split; [| done]. intros _. exists new. cbn. by rewrite lookup_insert_eq.
  - split; [done |]. by intros _.
Qed.

Lemma X11_local_upload_prepends_batch_in_order_witness :
  let fs := [Fake.a_txt; Fake.b_png] in
  let good := Local.mount ∅ (Fake.mkWorld 0 []) in
  let bad := Local.mount ∅ (Fake.mkWorld 0 [3%nat]) in
  (reads_resolve fs (Local.world good)
   ∧ ∃ new, Local.files (exec (Local.handleFileUpload (Some fs)) good)
            = new ++ []
            ∧ Forall2 describes new fs)
  ∧ (¬ reads_resolve fs (Local.world bad)
     ∧ Local.files (exec (Local.handleFileUpload (Some fs)) bad) = []
     ∧ Local.isLoading (exec (Local.handleFileUpload (Some fs)) bad) = true).
Proof.
  intros fs good bad.
  assert (reads_resolve fs (Local.world good)) as Hgood.
  { do 2 eexists. split; [reflexivity |].
    do 2 eexists. split; [reflexivity | exact I]. }
  assert (¬ reads_resolve fs (Local.world bad)) as Hbad.
  { intros (d1 & w1 & Heq1 & d2 & w2 & Heq2 & _).
    injection Heq1 as <- <-. discriminate Heq2. }
  split.
  - split; [exact Hgood |].
    destruct (proj1 (X11_local_upload_prepends_batch_in_order Fake.World
                       Fake.browser good fs) Hgood)
      as (new & Hnew & Hitems & _).
    by exists new.
  - split; [exact Hbad |].
    destruct (proj2 (X11_local_upload_prepends_batch_in_order Fake.World
                       Fake.browser bad fs) Hbad) as (Hfiles & _ & Hbusy).
    split; [exact Hfiles | exact Hbusy].
Defined.

(** ** Delete a file *)

Lemma remote_delete_file_log (W : Type) (E : Remote.Env W)
    (s : Remote.Sys W) (file : Remote.FileItem) :
  ∃ removal err,
    Remote.log (exec (Remote.handleDeleteFile file) s)
    = Remote.log s ++ removal ++ [Remote.EDeleteFile (Remote.f_id file) err]
    ∧ Remote.files (exec (Remote.handleDeleteFile file) s)
      = match err with
        | None => filter (λ f, Remote.f_id f ≠ Remote.f_id file) (Remote.files s)
        | Some _ => Remote.files s
        end.
Proof.
  unfold exec. rewrite remote_delete_file_run.
  destruct (removeBlobOf_spec file s) as (removal & w1 & -> & _). cbn.
  destruct (Remote.files_delete_eq (Remote.f_id file) w1) as [err w]. cbn.
  exists removal, err. by rewrite <- app_assoc.
Qed.

(** X12. [deleteFile] leaves exactly the files whose id is not the given
    one, in their order (see [removes_exactly]): always in the local
    variant, where the new list is also what the store holds; in the remote
    variant when the last call issued, the row delete, answered without an
    error. *)
Theorem X12_delete_file_removes_exactly :
  (∀ (W : Type) (E : Local.Env W) (s : Local.Sys W) (id : jsstring),
      let s' := exec (Local.handleDeleteFile id) s in
      removes_exactly Local.f_id id (Local.files s) (Local.files s')
      ∧ Local.storage s' !! Local.FILES_KEY
        = Some (Local.StoredFiles (Local.files s')))
  ∧ (∀ (W : Type) (E : Remote.Env W) (s : Remote.Sys W)
       (file : Remote.FileItem),
      let s' := exec (Remote.handleDeleteFile file) s in
      last (Remote.log s')
      = Some (Remote.EDeleteFile (Remote.f_id file) None) →
      removes_exactly Remote.f_id (Remote.f_id file) (Remote.files s)
        (Remote.files s')).
Proof.
  split.
  - intros W E s id s'. subst s'. cbn. rewrite lookup_insert_eq.
    split; [apply filter_removes_exactly | done].
  - intros W E s file s' Hlast. subst s'.
    destruct (remote_delete_file_log W E s file) as (removal & err & Hlog & ->).
    rewrite Hlog, app_assoc, last_snoc in Hlast. injection Hlast as ->.
    apply filter_removes_exactly.
Qed.

Lemma X12_delete_file_removes_exactly_witness :
  let f := Remote.mkFileItem (js "f1") (js "a.txt") 3 (js "text/plain")
             (js "https://kho.example/files/k1.txt") (js "t1") in
  let g := Remote.mkFileItem (js "f2") (js "b.png") 9 (js "image/png")
             (js "https://kho.example/files/k2.png") (js "t0") in
  let s := Remote.mkSys [] [] [f; g] false false (Some [])
                        (Fake.mkWorld 0 []) [] in
  Remote.files (exec (Remote.handleDeleteFile g) s) = [f].
Proof.
  intros f g s.
  destruct (proj2 X12_delete_file_removes_exactly Fake.World Fake.remote s g
              eq_refl) as (_ & _ & Hone & _).
  apply (Hone [f] g []); [reflexivity | reflexivity |].
  intros y Hy. apply list_elem_of_singleton in Hy as ->. discriminate.
Defined.

(** ** Order *)

Lemma newest_first_filter {A : Type} (stamp : A → jsstring) (P : A → Prop)
    `{!∀ x, Decision (P x)} (l : list A) :
  newest_first (stamp <$> l) = true →
  newest_first (stamp <$> filter P l) = true.
Proof.
  apply newest_first_sublist. apply fmap_sublist. apply sublist_filter.
Qed.

(** X13. Deleting keeps the order: after [deleteMessage] or [deleteFile], in
    either variant and whatever the store answers, a list that was newest
    first is newest first.  A save keeps it when the timestamp of the new
    message (the clock reading of the local variant, the [created_at] of the
    returned row of the remote variant) is not earlier than any listed. *)
Theorem X13_newest_first_is_kept :
  (∀ (W : Type) (E : Remote.Env W) (s : Remote.Sys W),
      (∀ id, newest_first (Remote.m_created_at <$> Remote.messages s) = true →
             newest_first
               (Remote.m_created_at
                  <$> Remote.messages (exec (Remote.handleDeleteMessage id) s))
             = true)
      ∧ (∀ file, newest_first (Remote.f_created_at <$> Remote.files s) = true →
                 newest_first
                   (Remote.f_created_at
                      <$> Remote.files (exec (Remote.handleDeleteFile file) s))
                 = true)
      ∧ (∀ r w,
           Remote.messages_insert (trim (Remote.text s)) (Remote.world s)
           = (r, w) →
           (∀ d, Remote.data r = Some d →
                 Forall (λ m, leb (Remote.m_created_at m)
                                  (Remote.m_created_at d) = true)
                        (Remote.messages s)) →
           newest_first (Remote.m_created_at <$> Remote.messages s) = true →
           newest_first
             (Remote.m_created_at <$> Remote.messages (exec Remote.handleSave s))
           = true))
  ∧ (∀ (W : Type) (E : Local.Env W) (s : Local.Sys W),
      (∀ id, newest_first (Local.m_createdAt <$> Local.messages s) = true →
             newest_first
               (Local.m_createdAt
                  <$> Local.messages (exec (Local.handleDeleteMessage id) s))
             = true)
      ∧ (∀ id, newest_first (Local.f_createdAt <$> Local.files s) = true →
               newest_first
                 (Local.f_createdAt
                    <$> Local.files (exec (Local.handleDeleteFile id) s))
               = true)
      ∧ (∀ id w1 createdAt w2,
           Local.randomUUID (Local.world s) = (id, w1) →
           Local.now_toISOString w1 = (createdAt, w2) →
           Forall (λ m, leb (Local.m_createdAt m) createdAt = true)
                  (Local.messages s) →
           newest_first (Local.m_createdAt <$> Local.messages s) = true →
           newest_first
             (Local.m_createdAt <$> Local.messages (exec Local.handleSave s))
           = true)).
Proof.
  split; intros W E s; split; [| split | | split].
  - intros id Hnf.
    destruct (Remote.messages_delete_eq id (Remote.world s)) as [err w] eqn:Hd.
    rewrite (remote_delete_message_run s id err w Hd). cbn.
    destruct err; [done | by apply newest_first_filter].
  - intros file Hnf.
    destruct (remote_delete_file_log W E s file) as (removal & err & _ & ->).
    destruct err; [done | by apply newest_first_filter].
  - intros r w Hins Hlate Hnf.
    destruct (decide (trim (Remote.text s) = [])) as [Hblank | Hne].
    + unfold exec. by rewrite (remote_save_blank s Hblank).
    + rewrite (remote_save_run s Hne r w Hins).
      destruct (Remote.data r) as [d |] eqn:Hdata; [| done].
      destruct (Remote.error r); [done |]. cbn [Remote.messages].
      rewrite fmap_cons. apply newest_first_cons; [| done].
      apply Forall_fmap. by apply Hlate.
  - intros id Hnf. cbn. by apply newest_first_filter.
  - intros id Hnf. cbn. by apply newest_first_filter.
  - intros id w1 createdAt w2 Hid Hnow Hlate Hnf.
    destruct (decide (trim (Local.text s) = [])) as [Hblank | Hne].
    + unfold exec. by rewrite (local_save_blank s Hblank).
    + rewrite (local_save_run s Hne id w1 createdAt w2 Hid Hnow).
      cbn [Local.messages]. rewrite fmap_cons.
      apply newest_first_cons; [| done]. by apply Forall_fmap.
Qed.

Lemma X13_newest_first_is_kept_witness :
  let a := Local.mkMessage (js "a") (js "one") (js "2023-06-01T10:00:00.000Z") in
  let b := Local.mkMessage (js "b") (js "two") (js "2023-05-01T10:00:00.000Z") in
  let c := Local.mkMessage (js "c") (js "six") (js "2023-04-01T10:00:00.000Z") in
  let s := Local.mkSys (js "new") [a; b; c] [] false (Some []) ∅
                       (Fake.mkWorld 0 []) in
  newest_first (Local.m_createdAt <$> Local.messages s) = true
  ∧ newest_first
      (Local.m_createdAt
         <$> Local.messages (exec (Local.handleDeleteMessage (js "b")) s))
    = true
  ∧ newest_first
      (Local.m_createdAt <$> Local.messages (exec Local.handleSave s)) = true.
Proof.
  intros a b c s. split; [reflexivity |].
  destruct (proj2 X13_newest_first_is_kept Fake.World Fake.browser s)
    as (Hdel & _ & Hsave).
  split; [apply Hdel; reflexivity |].
  apply (Hsave (js "uuid0") (Fake.mkWorld 1 [])
               (js "2024-01-01T00:00:00.001Z") (Fake.mkWorld 2 []));
    [reflexivity | reflexivity | | reflexivity].
  repeat constructor.
Defined.

(** ** The busy flag *)

Section RemoteBusy.
Context {W : Type} `{!Remote.Env W}.
Import Remote.

Lemma remote_save_idle (s : Sys W) :
  isLoading s = false → isLoading (exec handleSave s) = false.
Proof.
  unfold handleSave, setIsLoading, setMessages, setText, call.
  by run_cases.
Qed.

Lemma remote_delete_message_idle (id : jsstring) (s : Sys W) :
  isLoading s = false → isLoading (exec (handleDeleteMessage id) s) = false.
Proof. unfold handleDeleteMessage, setMessages, call. by run_cases. Qed.

Lemma remote_delete_all_messages_idle (s : Sys W) :
  isLoading s = false → isLoading (exec handleDeleteAllMessages s) = false.
Proof.
  unfold handleDeleteAllMessages, setIsLoading, setMessages, call.
  by run_cases.
Qed.

Lemma remote_upload_idle (fs : option (list File)) (s : Sys W) :
  isLoading s = false → isLoading (exec (handleFileUpload fs) s) = false.
Proof.
  destruct fs as [fs |]; [| done].
  by destruct (remote_upload_run fs s) as (evs & w & -> & _).
Qed.

Lemma remote_delete_file_idle (file : FileItem) (s : Sys W) :
  isLoading s = false → isLoading (exec (handleDeleteFile file) s) = false.
Proof.
  unfold exec. rewrite remote_delete_file_run.
  destruct (removeBlobOf_spec file s) as (removal & w1 & -> & _).
  cbn. by destruct (files_delete_eq (f_id file) w1).
Qed.

Lemma remote_delete_all_files_idle (s : Sys W) :
  isLoading s = false → isLoading (exec handleDeleteAllFiles s) = false.
Proof.
  intros Hidle.
  destruct (confirm ConfirmDeleteAllFiles (world s)) as [ok w1] eqn:Hok.
  rewrite (remote_delete_all_files_run s ok w1 Hok).
  destruct ok; [| done]. cbn.
  destruct (blob_keys (files s)) as [| k keys].
  - by destruct (files_delete_in _ w1).
  - destruct (storage_remove (k :: keys) w1) as [e w2].
    by destruct (files_delete_in _ w2).
Qed.

Lemma remote_load_idle (s : Sys W) :
  isLoading s = false → isLoading (exec loadData s) = false.
Proof.
  unfold loadData, setIsSyncing, setMessages, setFiles, call. by run_cases.
Qed.
End RemoteBusy.

Section LocalInvariants.
Context {W : Type} `{!Local.Env W}.
Import Local.

Lemma local_dispatch_idle (a : Action) (s : Sys W) :
  isLoading s = false →
  match a with
  | Upload (Some fs) => reads_resolve fs (world s)
  | _ => True
  end →
  isLoading (exec (dispatch a) s) = false.
Proof.
  intros Hidle Hres. destruct a as [v | | | id | | fs | id |]; cbn [dispatch];
    [done | done | | done | | | done |].
  - unfold handleSave, setMessages, setText, call. by run_cases.
  - unfold handleDeleteAllMessages, setMessages, call. by run_cases.
  - destruct fs as [fs |]; [| done].
    by destruct (local_upload_run fs s)
      as (w & [(_ & new & -> & _) | (Hnot & _)]).
  - unfold handleDeleteAllFiles, setFiles, call. by run_cases.
Qed.

Lemma local_session_idle (acts : list Action) (s : Sys W) :
  isLoading s = false → uploads_resolve acts s →
  isLoading (exec (session acts) s) = false.
Proof.
  revert s. induction acts as [| a acts IH]; intros s Hs Hres; [done |].
  destruct Hres as [Ha Hres].
  unfold session. cbn [for_of]. rewrite exec_bind.
  apply IH; [| done]. by apply local_dispatch_idle.
Qed.

Lemma local_upload_pending (fs : list File) (s : Sys W) :
  ¬ reads_resolve fs (world s) →
  isLoading (exec (handleFileUpload (Some fs)) s) = true.
Proof.
  intros Hnot.
  by destruct (local_upload_run fs s)
    as (w & [(Hres & _) | (_ & ->)]).
Qed.

Lemma nonblank_filter (P : Message → Prop) `{!∀ m, Decision (P m)}
    (ms : list Message) :
  nonblank_contents ms → nonblank_contents (filter P ms).
Proof.
  unfold nonblank_contents. rewrite !Forall_forall.
  intros Hall m Hm. apply list_elem_of_filter in Hm as [_ Hm]. by apply Hall.
Qed.

Lemma local_dispatch_nonblank (a : Action) (s : Sys W) :
  nonblank_contents (messages s) →
  nonblank_contents (messages (exec (dispatch a) s)).
Proof.
  intros Hs. destruct a as [v | | | id | | fs | id |]; cbn [dispatch];
    [done | done | | | | | done |].
  - destruct (decide (trim (text s) = [])) as [Hblank | Hne].
    + unfold exec. by rewrite (local_save_blank s Hblank).
    + destruct (randomUUID (world s)) as [id w1] eqn:Hid.
      destruct (now_toISOString w1) as [createdAt w2] eqn:Hnow.
      rewrite (local_save_run s Hne id w1 createdAt w2 Hid Hnow).
      cbn [messages]. constructor; [| done].
      cbn [m_content]. by rewrite trim_idempotent.
  - cbn. by apply nonblank_filter.
  - unfold handleDeleteAllMessages, setMessages, call. run_cases;
      [constructor | done].
  - by rewrite (proj1 (local_upload_messages fs s)).
  - by rewrite (proj1 (local_delete_all_files_messages s)).
Qed.

Lemma local_session_nonblank (acts : list Action) (s : Sys W) :
  nonblank_contents (messages s) →
  nonblank_contents (messages (exec (session acts) s)).
Proof.
  revert s. induction acts as [| a acts IH]; intros s Hs; [done |].
  unfold session. cbn [for_of]. rewrite exec_bind.
  apply IH. by apply local_dispatch_nonblank.
Qed.
End LocalInvariants.

(** X14. No handler leaves the page busy, but for a local upload whose read
    does not resolve: when the busy flag ([isLoading]) is down before a
    handler runs, it is down after it, whatever the store and the user
    answer.  Remote variant: each handler and [loadData]; local variant:
    any sequence of actions in which every read of every upload resolves.
    A local upload one of whose reads does not resolve leaves the flag
    up. *)
Theorem X14_busy_flag_is_lowered :
  (∀ (W : Type) (E : Remote.Env W) (s : Remote.Sys W),
      Remote.isLoading s = false →
      Remote.isLoading (exec Remote.handleSave s) = false
      ∧ (∀ id, Remote.isLoading (exec (Remote.handleDeleteMessage id) s) = false)
      ∧ Remote.isLoading (exec Remote.handleDeleteAllMessages s) = false
      ∧ (∀ fs, Remote.isLoading (exec (Remote.handleFileUpload fs) s) = false)
      ∧ (∀ file, Remote.isLoading (exec (Remote.handleDeleteFile file) s) = false)
      ∧ Remote.isLoading (exec Remote.handleDeleteAllFiles s) = false
      ∧ Remote.isLoading (exec Remote.loadData s) = false)
  ∧ (∀ (W : Type) (E : Local.Env W) (s : Local.Sys W) (acts : list Local.Action),
      Local.isLoading s = false →
      uploads_resolve acts s →
      Local.isLoading (exec (Local.session acts) s) = false)
  ∧ (∀ (W : Type) (E : Local.Env W) (s : Local.Sys W) (fs : list File),
      ¬ reads_resolve fs (Local.world s) →
      Local.isLoading (exec (Local.handleFileUpload (Some fs)) s) = true).
Proof.
  split; [| split].
  - intros W E s Hidle.
    split; [by apply remote_save_idle |].
    split; [intros id; by apply remote_delete_message_idle |].
    split; [by apply remote_delete_all_messages_idle |].
    split; [intros fs; by apply remote_upload_idle |].
    split; [intros file; by apply remote_delete_file_idle |].
    split; [by apply remote_delete_all_files_idle |].
    by apply remote_load_idle.
  - intros W E s acts. apply local_session_idle.
  - intros W E s fs. apply local_upload_pending.
Qed.

Lemma X14_busy_flag_is_lowered_witness :
  let s := Fake.remote0 [1%nat; 2%nat] in
  let acts := [Local.Typing (js "hi"); Local.Save;
               Local.Upload (Some [Fake.a_txt]); Local.DeleteAllFiles] in
  let t := Local.mount ∅ (Fake.mkWorld 0 []) in
  let bad := Local.mount ∅ (Fake.mkWorld 0 [0%nat]) in
  (Remote.isLoading s = false
   ∧ Remote.isLoading
       (exec (Remote.handleFileUpload (Some [Fake.a_txt; Fake.b_png])) s)
     = false)
  ∧ (Local.isLoading t = false ∧ uploads_resolve acts t
     ∧ Local.isLoading (exec (Local.session acts) t) = false)
  ∧ (¬ reads_resolve [Fake.a_txt] (Local.world bad)
     ∧ Local.isLoading (exec (Local.handleFileUpload (Some [Fake.a_txt])) bad)
       = true).
Proof.
  intros s acts t bad.
  destruct X14_busy_flag_is_lowered as (Hremote & Hlocal & Hpending).
  split; [| split].
  - split; [reflexivity |].
    destruct (Hremote Fake.World Fake.remote s eq_refl)
      as (_ & _ & _ & Hup & _).
    apply Hup.
  - assert (uploads_resolve acts t) as Hres.
    { split; [exact I |]. split; [exact I |]. split.
      - do 2 eexists. split; [reflexivity | exact I].
      - split; [exact I | exact I]. }
    split; [reflexivity |]. split; [exact Hres |].
    by apply (Hlocal Fake.World Fake.browser t acts).
  - assert (¬ reads_resolve [Fake.a_txt] (Local.world bad)) as Hbad.
    { intros (d & w & Heq & _). discriminate Heq. }
    split; [exact Hbad |].
    by apply (Hpending Fake.World Fake.browser bad).
Defined.

(** X15. Local variant.  No sequence of actions lists a blank message: when
    every listed message has a content whose trimmed form is not empty, the
    same holds after any sequence of actions; so it holds throughout a
    session started on an empty store. *)
Theorem X15_local_session_keeps_contents_nonblank :
  ∀ (W : Type) (E : Local.Env W) (s : Local.Sys W) (acts : list Local.Action),
    nonblank_contents (Local.messages s) →
    nonblank_contents (Local.messages (exec (Local.session acts) s)).
Proof. intros W E s acts. apply local_session_nonblank. Qed.

Lemma X15_local_session_keeps_contents_nonblank_witness :
  let acts := [Local.Typing (js "   "); Local.Save;
               Local.Typing (js " note "); Local.Save;
               Local.Typing [0x0A]; Local.Save] in
  let s := Local.mount ∅ (Fake.mkWorld 0 []) in
  nonblank_contents (Local.messages s)
  ∧ Local.m_content <$> Local.messages (exec (Local.session acts) s)
    = [js "note"]
  ∧ nonblank_contents (Local.messages (exec (Local.session acts) s)).
Proof.
  intros acts s. split; [constructor |]. split; [reflexivity |].
  apply (X15_local_session_keeps_contents_nonblank Fake.World Fake.browser s
           acts).
  constructor.
Defined.

(** ** Sizes *)

(** X16. [formatFileSize] in its two upper ranges, on the byte count of a
    file (an integer below [2^53]).  From 1024 and below 1,048,576 bytes the
    number shown before [" KB"] has an integer part from 1 to 1024 and one
    decimal; it is ["1024.0"] for every size from 1,048,525 on: such a size
    is shown as ["1024.0 KB"], not in MB.  From 1,048,576 bytes on the
    number shown before [" MB"] has an integer part of at least 1 and one
    decimal. *)
Theorem X16_formatFileSize_shown_numbers :
  ∀ bytes : N,
    (1024 ≤ bytes < 1048576 →
     ∃ whole tenth,
       (1 ≤ whole ≤ 1024) ∧ tenth < 10
       ∧ Remote.formatFileSize bytes
         = Some (Number_toString whole ++ js "." ++ Number_toString tenth
                 ++ js " KB"))
    ∧ (1048525 ≤ bytes < 1048576 →
       Remote.formatFileSize bytes = Some (js "1024.0 KB"))
    ∧ (1048576 ≤ bytes < 2 ^ 53 →
       ∃ whole tenth,
         1 ≤ whole ∧ tenth < 10
         ∧ Remote.formatFileSize bytes
           = Some (Number_toString whole ++ js "." ++ Number_toString tenth
                   ++ js " MB")).
Proof.
  intros bytes. unfold Remote.formatFileSize, div_toFixed1.
  change (1024 * 1024) with 1048576.
  change (10 ^ 21 * 1024) with 1024000000000000000000000.
  change (10 ^ 21 * 1048576) with 1048576000000000000000000000.
  change (2 ^ 53) with 9007199254740992.
  split; [| split].
  - intros [Hge Hlt].
    pose proof (nearest_tenth_spec bytes 1024 ltac:(done)) as [Hlo Hhi].
    assert ((bytes <? 1024) = false) as -> by (apply N.ltb_ge; lia).
    assert ((bytes <? 1048576) = true) as -> by (apply N.ltb_lt; lia).
    assert ((1024000000000000000000000 <=? bytes) = false) as ->
      by (apply N.leb_gt; lia).
    cbn [fmap option_fmap option_map].
    rewrite fixed1_digits_spec, <- !app_assoc.
    pose proof (N.div_mod (nearest_tenth bytes 1024) 10 ltac:(done)).
    pose proof (N.mod_lt (nearest_tenth bytes 1024) 10 ltac:(done)).
    exists (nearest_tenth bytes 1024 / 10), (nearest_tenth bytes 1024 mod 10).
    split; [| split; [done | reflexivity]].
    remember (nearest_tenth bytes 1024) as n eqn:En.
    remember (n / 10) as q eqn:Eq. remember (n mod 10) as r eqn:Er.
    clear En Eq Er. lia.
  - intros [Hge Hlt].
    pose proof (nearest_tenth_spec bytes 1024 ltac:(done)) as [Hlo Hhi].
    assert ((bytes <? 1024) = false) as -> by (apply N.ltb_ge; lia).
    assert ((bytes <? 1048576) = true) as -> by (apply N.ltb_lt; lia).
    assert ((1024000000000000000000000 <=? bytes) = false) as ->
      by (apply N.leb_gt; lia).
    assert (nearest_tenth bytes 1024 = 10240) as -> by lia.
    reflexivity.
  - intros [Hge Hlt].
    pose proof (nearest_tenth_spec bytes 1048576 ltac:(done)) as [Hlo Hhi].
    assert ((bytes <? 1024) = false) as -> by (apply N.ltb_ge; lia).
    assert ((bytes <? 1048576) = false) as -> by (apply N.ltb_ge; lia).
    assert ((1048576000000000000000000000 <=? bytes) = false) as ->
      by (apply N.leb_gt; lia).
    cbn [fmap option_fmap option_map].
    rewrite fixed1_digits_spec, <- !app_assoc.
    pose proof (N.div_mod (nearest_tenth bytes 1048576) 10 ltac:(done)).
    pose proof (N.mod_lt (nearest_tenth bytes 1048576) 10 ltac:(done)).
    exists (nearest_tenth bytes 1048576 / 10),
           (nearest_tenth bytes 1048576 mod 10).
    split; [| split; [done | reflexivity]].
    remember (nearest_tenth bytes 1048576) as n eqn:En.
    remember (n / 10) as q eqn:Eq. remember (n mod 10) as r eqn:Er.
    clear En Eq Er. lia.
Qed.

Lemma X16_formatFileSize_shown_numbers_witness :
  ((1048525 ≤ 1048530 < 1048576)
   ∧ Remote.formatFileSize 1048530 = Some (js "1024.0 KB"))
  ∧ ((1024 ≤ 1048524 < 1048576)
     ∧ Remote.formatFileSize 1048524 = Some (js "1023.9 KB"))
  ∧ ((1048576 ≤ 9007199254740991 < 2 ^ 53)
     ∧ ∃ whole tenth,
         Remote.formatFileSize 9007199254740991
         = Some (Number_toString whole ++ js "." ++ Number_toString tenth
                 ++ js " MB")).
Proof.
  split; [| split].
  - split; [split; [discriminate | reflexivity] |].
    apply (proj1 (proj2 (X16_formatFileSize_shown_numbers 1048530))).
    split; [discriminate | reflexivity].
  - split; [split; [discriminate | reflexivity] |].
    destruct (proj1 (X16_formatFileSize_shown_numbers 1048524))
      as (whole & tenth & _ & _ & _); [split; [discriminate | reflexivity] |].
    reflexivity.
  - split; [split; [discriminate | reflexivity] |].
    destruct (proj2 (proj2 (X16_formatFileSize_shown_numbers 9007199254740991)))
      as (whole & tenth & _ & _ & Hfmt); [split; [discriminate | reflexivity] |].
    by exists whole, tenth.
Defined.

(** ** The draft *)

Section RemoteDraft.
Context {W : Type} `{!Remote.Env W}.
Import Remote.

Lemma remote_delete_message_text (id : jsstring) (s : Sys W) :
  text (exec (handleDeleteMessage id) s) = text s.
Proof. unfold handleDeleteMessage, setMessages, call. by run_cases. Qed.

Lemma remote_delete_all_messages_text (s : Sys W) :
  text (exec handleDeleteAllMessages s) = text s.
Proof.
  unfold handleDeleteAllMessages, setIsLoading, setMessages, call.
  by run_cases.
Qed.

Lemma remote_upload_text (fs : option (list File)) (s : Sys W) :
  text (exec (handleFileUpload fs) s) = text s.
Proof.
  destruct fs as [fs |]; [| done].
  by destruct (remote_upload_run fs s) as (evs & w & -> & _).
Qed.

Lemma remote_delete_file_text (file : FileItem) (s : Sys W) :
  text (exec (handleDeleteFile file) s) = text s.
Proof.
  unfold exec. rewrite remote_delete_file_run.
  destruct (removeBlobOf_spec file s) as (removal & w1 & -> & _).
  cbn. by destruct (files_delete_eq (f_id file) w1).
Qed.

Lemma remote_delete_all_files_text (s : Sys W) :
  text (exec handleDeleteAllFiles s) = text s.
Proof.
  destruct (confirm ConfirmDeleteAllFiles (world s)) as [ok w1] eqn:Hok.
  rewrite (remote_delete_all_files_run s ok w1 Hok).
  destruct ok; [| done]. cbn.
  destruct (blob_keys (files s)) as [| k keys].
  - by destruct (files_delete_in _ w1).
  - destruct (storage_remove (k :: keys) w1) as [e w2].
    by destruct (files_delete_in _ w2).
Qed.
End RemoteDraft.

Section LocalDraft.
Context {W : Type} `{!Local.Env W}.
Import Local.

Lemma local_delete_all_messages_text (s : Sys W) :
  text (exec handleDeleteAllMessages s) = text s.
Proof. unfold handleDeleteAllMessages, setMessages, call. by run_cases. Qed.

Lemma local_upload_text (fs : option (list File)) (s : Sys W) :
  text (exec (handleFileUpload fs) s) = text s.
Proof.
  destruct fs as [fs |]; [| done].
  by destruct (local_upload_run fs s)
    as (w & [(_ & new & -> & _) | (_ & ->)]).
Qed.

Lemma local_delete_all_files_text (s : Sys W) :
  text (exec handleDeleteAllFiles s) = text s.
Proof. unfold handleDeleteAllFiles, setFiles, call. by run_cases. Qed.
End LocalDraft.

(** X17. The text being typed survives everything but a save and a reset:
    in both variants the delete, delete-all and upload handlers leave the
    input text as it was, whatever the store and the user answer; [reset]
    empties it and touches neither list. *)
Theorem X17_draft_text_is_kept :
  (∀ (W : Type) (E : Remote.Env W) (s : Remote.Sys W),
      (∀ id, Remote.text (exec (Remote.handleDeleteMessage id) s) = Remote.text s)
      ∧ Remote.text (exec Remote.handleDeleteAllMessages s) = Remote.text s
      ∧ (∀ fs, Remote.text (exec (Remote.handleFileUpload fs) s) = Remote.text s)
      ∧ (∀ file, Remote.text (exec (Remote.handleDeleteFile file) s)
                 = Remote.text s)
      ∧ Remote.text (exec Remote.handleDeleteAllFiles s) = Remote.text s
      ∧ (Remote.text (exec Remote.handleReset s) = []
         ∧ Remote.messages (exec Remote.handleReset s) = Remote.messages s
         ∧ Remote.files (exec Remote.handleReset s) = Remote.files s
         ∧ Remote.log (exec Remote.handleReset s) = Remote.log s))
  ∧ (∀ (W : Type) (E : Local.Env W) (s : Local.Sys W),
      (∀ id, Local.text (exec (Local.handleDeleteMessage id) s) = Local.text s)
      ∧ Local.text (exec Local.handleDeleteAllMessages s) = Local.text s
      ∧ (∀ fs, Local.text (exec (Local.handleFileUpload fs) s) = Local.text s)
      ∧ (∀ id, Local.text (exec (Local.handleDeleteFile id) s) = Local.text s)
      ∧ Local.text (exec Local.handleDeleteAllFiles s) = Local.text s
      ∧ (Local.text (exec Local.handleReset s) = []
         ∧ Local.messages (exec Local.handleReset s) = Local.messages s
         ∧ Local.files (exec Local.handleReset s) = Local.files s
         ∧ Local.storage (exec Local.handleReset s) = Local.storage s)).
Proof.
  split; intros W E s.
  - split; [intros id; apply remote_delete_message_text |].
    split; [apply remote_delete_all_messages_text |].
    split; [intros fs; apply remote_upload_text |].
    split; [intros file; apply remote_delete_file_text |].
    split; [apply remote_delete_all_files_text | done].
  - split; [done |].
    split; [apply local_delete_all_messages_text |].
    split; [intros fs; apply local_upload_text |].
    split; [done |].
    split; [apply local_delete_all_files_text | done].
Qed.
